(** * Asin.py: the status-check core of the ASIN dashboard

    A shallow embedding of the scraping and reconciliation code of
    [src/Asin.py] (identifier extraction, page fetching, price and
    availability classification, reconciliation, the batch runner and the
    catalog writes it relies on), with the properties the specification
    states about them.

    Conventions of the embedding.
    - A Python [str] is a [string]; a character is a code point below 256.
    - A Python value that may be [None] is an [option].
    - Code that touches the browser or the database runs in the monad [M]:
      a state transformer over [world] whose result is either a value or a
      raised exception.  As in Python, the effects performed before an
      exception is raised stay performed.
    - The HTML parser, the web, the clock and the database's failures are the
      environment: they are the variables of the section [Program]. *)

From Stdlib Require Import String Ascii List Bool Arith NArith ZArith Lia.
Import ListNotations.

Local Open Scope string_scope.
Local Open Scope list_scope.

(** ** Characters and strings, as Python's [str] methods see them *)

Module PyStr.

Definition code (c : ascii) : N := N_of_ascii c.

Definition between (lo hi : N) (c : ascii) : bool :=
  (lo <=? code c)%N && (code c <=? hi)%N.

Definition is_digit (c : ascii) : bool := between 48 57 c.
Definition is_upper (c : ascii) : bool := between 65 90 c.
Definition is_lower (c : ascii) : bool := between 97 122 c.

(** [str.isalnum] on one code point below 256: the letters and digits of
    ASCII, and in the upper half the letters (feminine and masculine ordinal,
    micro sign, the accented letters) and the numeric signs (superscripts
    one to three, the three vulgar fractions). *)
Definition isalnum_char (c : ascii) : bool :=
  is_digit c || is_upper c || is_lower c
  || (code c =? 170)%N || (code c =? 178)%N || (code c =? 179)%N
  || (code c =? 181)%N || (code c =? 185)%N || (code c =? 186)%N
  || between 188 190 c || between 192 214 c || between 216 246 c
  || between 248 255 c.

(** [str.isspace] on one code point below 256. *)
Definition isspace_char (c : ascii) : bool :=
  between 9 13 c || between 28 32 c || (code c =? 133)%N || (code c =? 160)%N.

(** [str.lower] on one code point below 256. *)
Definition lower_char (c : ascii) : ascii :=
  if is_upper c || between 192 214 c || between 216 222 c
  then ascii_of_N (code c + 32)
  else c.

Fixpoint forall_chars (p : ascii -> bool) (s : string) : bool :=
  match s with
  | EmptyString => true
  | String c s' => p c && forall_chars p s'
  end.

Definition is_empty (s : string) : bool :=
  match s with EmptyString => true | String _ _ => false end.

(** [s.isalnum()]: every character is alphanumeric and there is at least
    one. *)
Definition isalnum (s : string) : bool :=
  negb (is_empty s) && forall_chars isalnum_char s.

(** [s.lower()]. *)
Fixpoint lower (s : string) : string :=
  match s with
  | EmptyString => EmptyString
  | String c s' => String (lower_char c) (lower s')
  end.

(** [s.lstrip(chars)], [s.rstrip(chars)] and [s.strip(chars)], the set of
    characters given as a predicate. *)
Fixpoint lstrip (p : ascii -> bool) (s : string) : string :=
  match s with
  | EmptyString => EmptyString
  | String c s' => if p c then lstrip p s' else s
  end.

Fixpoint rstrip (p : ascii -> bool) (s : string) : string :=
  match s with
  | EmptyString => EmptyString
  | String c s' =>
      let r := rstrip p s' in
      if p c && is_empty r then EmptyString else String c r
  end.

Definition strip_set (p : ascii -> bool) (s : string) : string :=
  rstrip p (lstrip p s).

(** [s.strip()] with no argument strips white space. *)
Definition strip (s : string) : string := strip_set isspace_char s.

(** [s.strip("/")] and the like: the set is one character. *)
Definition strip_char (c : ascii) (s : string) : string :=
  strip_set (Ascii.eqb c) s.

(** [s.split(sep)] for a one-character separator: never the empty list,
    empty fields are kept. *)
Fixpoint split (sep : ascii) (s : string) : list string :=
  match s with
  | EmptyString => [EmptyString]
  | String c s' =>
      if Ascii.eqb c sep then EmptyString :: split sep s'
      else match split sep s' with
           | field :: fields => String c field :: fields
           | [] => [String c EmptyString]
           end
  end.

(** [sep.join(fields)], the inverse of [split]. *)
Fixpoint join (sep : ascii) (fields : list string) : string :=
  match fields with
  | [] => EmptyString
  | [f] => f
  | f :: fs => f ++ String sep (join sep fs)
  end.

(** [s.replace(old, "")] for a one-character [old]. *)
Fixpoint remove_char (old : ascii) (s : string) : string :=
  match s with
  | EmptyString => EmptyString
  | String c s' =>
      if Ascii.eqb c old then remove_char old s' else String c (remove_char old s')
  end.

(** [s.endswith(c)] for one character. *)
Fixpoint endswith_char (c : ascii) (s : string) : bool :=
  match s with
  | EmptyString => false
  | String a EmptyString => Ascii.eqb a c
  | String _ s' => endswith_char c s'
  end.

(** [s[:-1]]. *)
Fixpoint drop_last (s : string) : string :=
  match s with
  | EmptyString => EmptyString
  | String _ EmptyString => EmptyString
  | String a s' => String a (drop_last s')
  end.

(** [s.startswith(p)], returning what follows the prefix. *)
Fixpoint after_prefix (p s : string) : option string :=
  match p with
  | EmptyString => Some s
  | String a p' =>
      match s with
      | String b s' => if Ascii.eqb a b then after_prefix p' s' else None
      | EmptyString => None
      end
  end.

(** [sub in s]. *)
Fixpoint contains (sub s : string) : bool :=
  match after_prefix sub s with
  | Some _ => true
  | None =>
      match s with
      | EmptyString => false
      | String _ s' => contains sub s'
      end
  end.

(** [s[n:]]. *)
Fixpoint drop (n : nat) (s : string) : string :=
  match n with
  | 0 => s
  | S n' => match s with
            | EmptyString => EmptyString
            | String _ s' => drop n' s'
            end
  end.

End PyStr.

(** ** Regular expressions of the source

    Both patterns are a literal followed by the group [([A-Z0-9]{10})];
    [re.search] tries every start position from the left, and at one
    position the alternatives in the order written. *)

Module Re.

(** The class [[A-Z0-9]]. *)
Definition asin_char (c : ascii) : bool := PyStr.is_upper c || PyStr.is_digit c.

(** [[A-Z0-9]{n}] at the head of [s]: the text matched. *)
Fixpoint class_times (n : nat) (s : string) : option string :=
  match n with
  | 0 => Some EmptyString
  | S n' =>
      match s with
      | String c s' =>
          if asin_char c
          then option_map (String c) (class_times n' s')
          else None
      | EmptyString => None
      end
  end.

(** A literal and then the group, at the head of [s]: the group. *)
Definition literal_then_group (lit s : string) : option string :=
  match PyStr.after_prefix lit s with
  | Some rest => class_times 10 rest
  | None => None
  end.

(** [re.search]: the match at the leftmost position that has one. *)
Fixpoint search {A : Type} (at_head : string -> option A) (s : string) : option A :=
  match at_head s with
  | Some m => Some m
  | None =>
      match s with
      | EmptyString => None
      | String _ s' => search at_head s'
      end
  end.

(** A match object of a pattern with two groups: a group that took no part
    in the match is [None]. *)
Record match2 : Type := mkMatch2 { group1 : option string; group2 : option string }.

(** [/dp/([A-Z0-9]{10})|/gp/product/([A-Z0-9]{10})] at the head of [s]. *)
Definition dp_or_gp_at (s : string) : option match2 :=
  match literal_then_group "/dp/" s with
  | Some g => Some (mkMatch2 (Some g) None)
  | None =>
      match literal_then_group "/gp/product/" s with
      | Some g => Some (mkMatch2 None (Some g))
      | None => None
      end
  end.

(** [/dp/([A-Z0-9]{10})] at the head of [s]. *)
Definition dp_at (s : string) : option string := literal_then_group "/dp/" s.

End Re.

(** Python's [a or b] on values that are [None] or a string: [a] when it is
    truthy (a non-empty string), else [b]. *)
Definition py_or (a b : option string) : option string :=
  match a with
  | Some s => if PyStr.is_empty s then b else a
  | None => b
  end.

(** ** URL/ASIN extractor *)

(** The test of the fallback loop: [len(part) == 10 and part.isalnum()]. *)
Definition ten_alnum (part : string) : bool :=
  Nat.eqb (String.length part) 10 && PyStr.isalnum part.

(** [extract_asin(url)], lines 127-135. The result is a Python value:
    [None] or a string. *)
Definition extract_asin (url : string) : option string :=
  match Re.search Re.dp_or_gp_at url with
  | Some m => py_or (Re.group1 m) (Re.group2 m)
  | None =>
      let parts := PyStr.split "/" (PyStr.strip_char "/" url) in
      match find ten_alnum (rev parts) with
      | Some part => Some part
      | None => Some EmptyString
      end
  end.

(** [extract_asin_from_url(url)], lines 276-280. *)
Definition extract_asin_from_url (url : string) : option string :=
  match Re.search Re.dp_at url with
  | Some g => Some g
  | None => None
  end.

(** ** Parsed markup

    What [BeautifulSoup(html, 'html.parser')] returns: a forest of tags and
    strings.  A tag carries its name, its [id] attribute when it has one, the
    tokens of its [class] attribute and its children; a string node is a
    piece of text that counts for [.text]. *)

#[warnings="-register-all"]
Inductive node : Type :=
| Text (s : string)
| Tag (name : string) (id : option string) (classes : list string)
      (children : list node).

Definition soup : Type := list node.

(** The tags of a node in document order, the node itself first: the order
    in which [find] visits them. *)
Fixpoint tags_of (n : node) : list node :=
  match n with
  | Text _ => []
  | Tag _ _ _ children => n :: flat_map tags_of children
  end.

Definition all_tags (doc : soup) : list node := flat_map tags_of doc.

(** [el.text]: the strings below the tag, concatenated in document order. *)
Fixpoint text (n : node) : string :=
  match n with
  | Text s => s
  | Tag _ _ _ children => fold_right (fun c acc => text c ++ acc)%string "" children
  end.

Definition tag_name (n : node) : string :=
  match n with Text _ => "" | Tag name _ _ _ => name end.

Definition tag_id (n : node) : option string :=
  match n with Text _ => None | Tag _ i _ _ => i end.

Definition tag_classes (n : node) : list string :=
  match n with Text _ => [] | Tag _ _ cls _ => cls end.

Definition has_id (i : string) (n : node) : bool :=
  match tag_id n with Some j => String.eqb j i | None => false end.

Definition has_class (c : string) (n : node) : bool :=
  existsb (String.eqb c) (tag_classes n).

(** [soup.find(id=i)]. *)
Definition find_by_id (doc : soup) (i : string) : option node :=
  find (has_id i) (all_tags doc).

(** [soup.find(name, {'id': i})]. *)
Definition find_by_name_id (doc : soup) (name i : string) : option node :=
  find (fun n => String.eqb (tag_name n) name && has_id i n) (all_tags doc).

(** [soup.find(name, {'class': c})]. *)
Definition find_by_name_class (doc : soup) (name c : string) : option node :=
  find (fun n => String.eqb (tag_name n) name && has_class c n) (all_tags doc).

(** Truth value of what [find] returned: a tag is truthy, [None] is not. *)
Definition found (r : option node) : bool :=
  match r with Some _ => true | None => false end.

(** ** Availability classifier: price *)

Definition newline : ascii := ascii_of_nat 10.

Definition price_ids : list string :=
  [ "price_inside_buybox"; "priceblock_ourprice";
    "priceblock_dealprice"; "priceblock_saleprice" ].

(** [t.strip().replace('\n', '').replace('$', '').strip()]. *)
Definition clean_price (t : string) : string :=
  PyStr.strip (PyStr.remove_char "$" (PyStr.remove_char newline (PyStr.strip t))).

(** [el and el.text.strip()]: the element was found and its text is not
    blank. *)
Definition has_text (r : option node) : bool :=
  match r with
  | Some el => negb (PyStr.is_empty (PyStr.strip (text el)))
  | None => false
  end.

Arguments has_text : simpl never.

(** The loop of lines 299-302: the first listed id whose element has text
    decides. *)
Fixpoint price_by_ids (doc : soup) (pids : list string) : option string :=
  match pids with
  | [] => None
  | pid :: rest =>
      match find_by_id doc pid with
      | Some el =>
          if has_text (Some el) then Some (clean_price (text el))
          else price_by_ids doc rest
      | None => price_by_ids doc rest
      end
  end.

(** Lines 306-309: the whole part, without commas, dollar signs and one
    final point. *)
Definition whole_part (price_whole : node) : string :=
  let whole :=
    PyStr.remove_char "$" (PyStr.remove_char "," (PyStr.strip (text price_whole))) in
  if PyStr.endswith_char "." whole then PyStr.drop_last whole else whole.

(** Line 307. *)
Definition fraction_part (price_fraction : option node) : string :=
  match price_fraction with
  | Some el => PyStr.strip (text el)
  | None => "00"
  end.

(** Lines 295-315 of [extract_price_from_html], on the parsed markup. *)
Definition price_of_soup (doc : soup) : string :=
  match price_by_ids doc price_ids with
  | Some price => price
  | None =>
      let price_whole := find_by_name_class doc "span" "a-price-whole" in
      let price_fraction := find_by_name_class doc "span" "a-price-fraction" in
      match price_whole with
      | Some w => (whole_part w ++ "." ++ fraction_part price_fraction)%string
      | None =>
          let price_offscreen := find_by_name_class doc "span" "a-offscreen" in
          match price_offscreen with
          | Some el =>
              if has_text price_offscreen then clean_price (text el) else ""
          | None => ""
          end
      end
  end.

(** ** Availability classifier: orderable *)

Definition unavailable_texts : list string :=
  [ "Currently unavailable";
    "We don't know when or if this item will be back";
    "This product is not available"; "out of stock"; "unavailable";
    "Sorry, we couldn't find that page." ].

(** The loop of lines 331-333 followed by line 334: the value returned once
    no purchase affordance was found. *)
Fixpoint phrase_scan (html : string) (msgs : list string) : bool :=
  match msgs with
  | [] => false
  | msg :: rest =>
      if PyStr.contains (PyStr.lower msg) (PyStr.lower html) then false
      else phrase_scan html rest
  end.

(** Lines 320-334 of [is_orderable_from_html], on the parsed markup and the
    raw one. *)
Definition orderable_of_soup (doc : soup) (html : string) : bool :=
  let add_to_cart := find_by_name_id doc "input" "add-to-cart-button" in
  let buy_now := find_by_name_id doc "input" "buy-now-button" in
  let atc_button := find_by_name_id doc "button" "add-to-cart-button" in
  let buy_now_button := find_by_name_id doc "button" "buy-now-button" in
  if found add_to_cart || found buy_now || found atc_button || found buy_now_button
  then true
  else phrase_scan html unavailable_texts.

(** ** Result reconciler

    Lines 341-347 of [process_asin]: the flags computed from the two
    identifiers and the classifier's answer. *)

Definition option_string_eqb (a b : option string) : bool :=
  match a, b with
  | Some x, Some y => String.eqb x y
  | None, None => true
  | _, _ => false
  end.

Record flags : Type := mkFlags {
  is_redirect : bool;
  is_unavailable : bool;
  orderable : bool
}.

Definition reconcile (original_asin final_asin : option string)
    (raw_orderable : bool) : flags :=
  let is_redirect := negb (option_string_eqb original_asin final_asin) in
  let orderable := raw_orderable in
  let is_unavailable := negb orderable in
  if is_redirect then mkFlags is_redirect true false
  else mkFlags is_redirect is_unavailable orderable.

(** ** The world: catalog table, browser sessions, clock *)

(** A row of the table [asins].  The six result columns are [NULL] until the
    first check. *)
Record product : Type := mkProduct {
  p_id : Z;
  p_ASIN : option string;
  p_URL : string;
  p_Collection_Name : string;
  p_Size : string;
  p_Color : string;
  p_Customer : string;
  p_Final_URL : option string;
  p_Price : option string;
  p_Is_Redirect : option string;
  p_Is_Unavailable : option string;
  p_Orderable : option string;
  p_Last_Checked : option string
}.

(** A browser session: a [webdriver.Chrome] object. *)
Record session : Type := mkSession {
  is_open : bool;
  current_url : string;
  page_source : string
}.

(** [asins] is the table as a reader sees it once [ensure_table] and
    [ensure_status_columns] have run: a table that does not exist yet is the
    empty one, and a result column that does not exist yet reads as [NULL]
    in every record.  [next_id] is the key
    [AUTOINCREMENT] gives next; [sessions] holds every session ever started,
    a driver being its index; [visited] lists the navigations asked for,
    oldest first; [writes] counts the write statements sent to the database
    and [clock] the readings of the time. *)
Record world : Type := mkWorld {
  asins : list product;
  next_id : Z;
  sessions : list session;
  visited : list string;
  writes : nat;
  clock : nat
}.

Definition set_asins (t : list product) (w : world) : world :=
  mkWorld t (next_id w) (sessions w) (visited w) (writes w) (clock w).

Definition set_next_id (i : Z) (w : world) : world :=
  mkWorld (asins w) i (sessions w) (visited w) (writes w) (clock w).

Definition set_sessions (ss : list session) (w : world) : world :=
  mkWorld (asins w) (next_id w) ss (visited w) (writes w) (clock w).

Definition set_visited (v : list string) (w : world) : world :=
  mkWorld (asins w) (next_id w) (sessions w) v (writes w) (clock w).

Definition set_writes (n : nat) (w : world) : world :=
  mkWorld (asins w) (next_id w) (sessions w) (visited w) n (clock w).

Definition set_clock (n : nat) (w : world) : world :=
  mkWorld (asins w) (next_id w) (sessions w) (visited w) (writes w) n.

(** [l[i] = x] on a list known to be long enough; nothing happens out of
    range (the callers check the index first). *)
Fixpoint list_set {A : Type} (l : list A) (i : nat) (x : A) : list A :=
  match l, i with
  | [], _ => []
  | _ :: t, 0 => x :: t
  | h :: t, S i' => h :: list_set t i' x
  end.

(** ** Exceptions and the monad of effects *)

Inductive exn : Type :=
| TimeoutException     (* selenium: the navigation timed out *)
| WebDriverException   (* selenium: any other failure of the driver *)
| DatabaseError.       (* sqlalchemy: the statement failed *)

Inductive outcome (A : Type) : Type :=
| Returned (a : A)
| Raised (e : exn).

Arguments Returned {A} a.
Arguments Raised {A} e.

Definition M (A : Type) : Type := world -> outcome A * world.

Definition ret {A : Type} (a : A) : M A := fun w => (Returned a, w).

Definition raise {A : Type} (e : exn) : M A := fun w => (Raised e, w).

Definition bind {A B : Type} (c : M A) (k : A -> M B) : M B :=
  fun w =>
    match c w with
    | (Returned a, w') => k a w'
    | (Raised e, w') => (Raised e, w')
    end.

(** [try: c  except E: h], [handles] telling which exceptions [E] names. *)
Definition try_except {A : Type} (c : M A) (handles : exn -> bool) (h : M A) : M A :=
  fun w =>
    match c w with
    | (Returned a, w') => (Returned a, w')
    | (Raised e, w') => if handles e then h w' else (Raised e, w')
    end.

Definition get_world : M world := fun w => (Returned w, w).

Definition modify (f : world -> world) : M unit := fun w => (Returned tt, f w).

Declare Scope monad_scope.
Delimit Scope monad_scope with monad.
Notation "x <- c ;; k" := (bind c (fun x => k))
  (at level 61, c at next level, right associativity) : monad_scope.
Notation "c ;; k" := (bind c (fun _ => k))
  (at level 61, right associativity) : monad_scope.
Local Open Scope monad_scope.

(** [for x in xs: body(x)]. *)
Fixpoint for_each {A : Type} (xs : list A) (body : A -> M unit) : M unit :=
  match xs with
  | [] => ret tt
  | x :: rest => body x ;; for_each rest body
  end.

Definition is_timeout (e : exn) : bool :=
  match e with TimeoutException => true | _ => false end.

Definition any_exception (e : exn) : bool := true.

(** What a navigation does: the page settles on a final URL with its markup,
    or the driver gives up waiting, or it fails otherwise. *)
Inductive navigation : Type :=
| Loaded (final_url html : string)
| TimedOut
| Crashed.

(** ** Rows of the data frames the runner works on *)

(** A row of the frame given to [run_status_check].  [r_id] is the cell of
    the identity column, [None] when it is null or the row has no such
    cell. *)
Record row : Type := mkRow {
  r_id : option Z;
  r_URL : string;
  r_Final_URL : option string;
  r_Price : option string;
  r_Is_Redirect : option string;
  r_Is_Unavailable : option string;
  r_Orderable : option string
}.

(** A frame: whether it has the column [id], and its rows. *)
Record DataFrame : Type := mkDataFrame {
  has_id_column : bool;
  rows : list row
}.

(** The argument of [add_asin_row], when it holds a text under each of its
    five keys, as the form of the "Manage Products" tab builds it.  A dict
    that lacks a key, or holds a blank cell of a sheet (a float) under one,
    is outside this type. *)
Record row_dict : Type := mkRowDict {
  d_URL : string;
  d_Collection_Name : string;
  d_Size : string;
  d_Color : string;
  d_Customer : string
}.

(** What [process_asin] returns. *)
Record check_result : Type := mkResult {
  c_final_url : string;
  c_price : string;
  c_is_redirect : bool;
  c_is_unavailable : bool;
  c_orderable : bool
}.

(** ["Yes" if b else "No"]. *)
Definition yes_no (b : bool) : string := if b then "Yes" else "No".

(** ** The program *)

Section Program.

(** The environment: the HTML parser; what the [n]-th navigation of the run,
    to a given URL, does; the text [datetime.now().strftime(...)] gives at
    its [n]-th reading; whether the [n]-th write statement fails. *)
Variable BeautifulSoup : string -> soup.
Variable web : nat -> string -> navigation.
Variable now : nat -> string.
Variable db_fails : nat -> bool.

(** [extract_price_from_html(html)], lines 292-315. *)
Definition extract_price_from_html (html : string) : string :=
  price_of_soup (BeautifulSoup html).

(** [is_orderable_from_html(html)], lines 317-334. *)
Definition is_orderable_from_html (html : string) : bool :=
  orderable_of_soup (BeautifulSoup html) html.

(** *** The browser *)

(** [webdriver.Chrome(...)]: a new open session; the driver is its index. *)
Definition webdriver_Chrome : M nat :=
  fun w =>
    (Returned (length (sessions w)),
     set_sessions (sessions w ++ [mkSession true "data:," ""]) w).

(** [driver.quit()]. *)
Definition driver_quit (driver : nat) : M unit :=
  fun w =>
    match nth_error (sessions w) driver with
    | Some s =>
        (Returned tt,
         set_sessions
           (list_set (sessions w) driver
              (mkSession false (current_url s) (page_source s))) w)
    | None => (Raised WebDriverException, w)
    end.

(** [driver.get(url)]: one navigation, on an open session. *)
Definition driver_get (driver : nat) (url : string) : M unit :=
  fun w =>
    match nth_error (sessions w) driver with
    | Some s =>
        if is_open s then
          let w' := set_visited (visited w ++ [url]) w in
          match web (length (visited w)) url with
          | Loaded final_url html =>
              (Returned tt,
               set_sessions
                 (list_set (sessions w) driver (mkSession true final_url html)) w')
          | TimedOut => (Raised TimeoutException, w')
          | Crashed => (Raised WebDriverException, w')
          end
        else (Raised WebDriverException, w)
    | None => (Raised WebDriverException, w)
    end.

(** [driver.current_url] and [driver.page_source]. *)
Definition driver_current_url (driver : nat) : M string :=
  fun w =>
    match nth_error (sessions w) driver with
    | Some s => (Returned (current_url s), w)
    | None => (Raised WebDriverException, w)
    end.

Definition driver_page_source (driver : nat) : M string :=
  fun w =>
    match nth_error (sessions w) driver with
    | Some s => (Returned (page_source s), w)
    | None => (Raised WebDriverException, w)
    end.

(** [get_final_url_and_html(driver, url)], lines 282-290.  The settling
    delay [time.sleep(8)] changes nothing in the world. *)
Definition get_final_url_and_html (driver : nat) (url : string)
    : M (string * string) :=
  try_except
    (driver_get driver url ;;
     final_url <- driver_current_url driver ;;
     html <- driver_page_source driver ;;
     ret (final_url, html))
    is_timeout
    (ret (url, "")).

(** [process_asin(driver, input_url)], lines 336-347. *)
Definition process_asin (driver : nat) (input_url : string) : M check_result :=
  let original_asin := extract_asin_from_url input_url in
  page <- get_final_url_and_html driver input_url ;;
  let final_url := fst page in
  let html := snd page in
  let final_asin := extract_asin_from_url final_url in
  let price := extract_price_from_html html in
  let f := reconcile original_asin final_asin (is_orderable_from_html html) in
  ret (mkResult final_url price (is_redirect f) (is_unavailable f) (orderable f)).

(** *** The catalog *)

(** [ensure_table()] and [ensure_status_columns()]: creating the table when
    it is missing and adding the result columns that are missing change no
    record and no count, and the world does not tell a missing table from an
    empty one nor a missing column from a [NULL] one: both leave it as it
    is. *)
Definition ensure_table : M unit := ret tt.
Definition ensure_status_columns : M unit := ret tt.

(** [get_all_asins()], lines 163-170: the frame always has the column
    [id]. *)
Definition get_all_asins : M (list product) :=
  ensure_table ;;
  ensure_status_columns ;;
  w <- get_world ;;
  ret (asins w).

(** One write statement in a transaction of its own: it is counted, and
    either fails (and is rolled back) or takes effect. *)
Definition execute (statement : world -> world) : M unit :=
  fun w =>
    let w' := set_writes (S (writes w)) w in
    if db_fails (writes w) then (Raised DatabaseError, w')
    else (Returned tt, statement w').

(** [datetime.now().strftime("%Y-%m-%d %H:%M:%S")]. *)
Definition datetime_now : M string :=
  fun w => (Returned (now (clock w)), set_clock (S (clock w)) w).

(** The [INSERT] of [add_asin_row]. *)
Definition insert_product (asin : option string) (d : row_dict) (w : world) : world :=
  set_next_id (next_id w + 1)
    (set_asins
       (asins w ++
        [mkProduct (next_id w) asin (d_URL d) (d_Collection_Name d) (d_Size d)
           (d_Color d) (d_Customer d) None None None None None None]) w).

(** [row_dict["URL"] in df_all["URL"].values]. *)
Definition url_in (url : string) (df_all : list product) : bool :=
  existsb (String.eqb url) (map p_URL df_all).

(** [add_asin_row(row_dict)], lines 172-198, on a dict of the type above
    and on a database that answers the statements of lines 173-175
    ([CREATE TABLE], [PRAGMA], [ALTER TABLE], [SELECT]), which are outside
    the [try]: of the database's failures only that of the [INSERT], which
    the [try] catches, is followed. *)
Definition add_asin_row (d : row_dict) : M bool :=
  ensure_table ;;
  ensure_status_columns ;;
  df_all <- get_all_asins ;;
  if url_in (d_URL d) df_all then ret false
  else
    let asin := extract_asin (d_URL d) in
    try_except
      (execute (insert_product asin d) ;; ret true)
      any_exception
      (ret false).

(** The [SET] clause of [update_status_columns]. *)
Definition set_status (r : row) (last_checked : string) (p : product) : product :=
  mkProduct (p_id p) (p_ASIN p) (p_URL p) (p_Collection_Name p) (p_Size p)
    (p_Color p) (p_Customer p)
    (r_Final_URL r) (r_Price r) (r_Is_Redirect r) (r_Is_Unavailable r)
    (r_Orderable r) (Some last_checked).

(** The [UPDATE ... WHERE id = :id] of [update_status_columns]. *)
Definition update_where_id (i : Z) (r : row) (last_checked : string) (w : world) : world :=
  set_asins
    (map (fun p => if Z.eqb (p_id p) i then set_status r last_checked p else p)
       (asins w)) w.

(** [update_status_columns(row)], lines 241-266. *)
Definition update_status_columns (r : row) : M unit :=
  match r_id r with
  | None => ret tt
  | Some row_id =>
      last_checked <- datetime_now ;;
      execute (update_where_id row_id r last_checked)
  end.

(** *** The check runner *)

(** The loop of lines 361-368: the five lists grow together, so they are
    one list of results. *)
Fixpoint check_all (driver : nat) (urls : list string) : M (list check_result) :=
  match urls with
  | [] => ret []
  | url :: rest =>
      r <- process_asin driver url ;;
      rs <- check_all driver rest ;;
      ret (r :: rs)
  end.

(** Lines 371-375: the result columns of one row. *)
Definition with_result (r : row) (c : check_result) : row :=
  mkRow (r_id r) (r_URL r) (Some (c_final_url c)) (Some (c_price c))
    (Some (yes_no (c_is_redirect c))) (Some (yes_no (c_is_unavailable c)))
    (Some (yes_no (c_orderable c))).

Definition assign_results (rs : list row) (results : list check_result) : list row :=
  map (fun rc => with_result (fst rc) (snd rc)) (combine rs results).

Definition set_id (i : option Z) (r : row) : row :=
  mkRow i (r_URL r) (r_Final_URL r) (r_Price r) (r_Is_Redirect r)
    (r_Is_Unavailable r) (r_Orderable r).

(** [df.merge(db_df[["URL", id_col]], on="URL", how="left")]: every row once
    per stored record of the same URL, in the order of the store, and once
    with a null identity when there is none. *)
Definition merge_left_on_URL (rs : list row) (db_df : list product) : list row :=
  flat_map
    (fun r =>
       match filter (fun p => String.eqb (p_URL p) (r_URL r)) db_df with
       | [] => [set_id None r]
       | matches => map (fun p => set_id (Some (p_id p)) r) matches
       end) rs.

(** [df[df[id_col].notnull()]]. *)
Definition id_notnull (r : row) : bool :=
  match r_id r with Some _ => true | None => false end.

(** [run_status_check(df)], lines 349-392.  [get_all_asins] always gives a
    frame with the column [id], so [id_col] is ["id"] and the two early
    returns are not taken. *)
Definition run_status_check (df : DataFrame) : M DataFrame :=
  driver <- webdriver_Chrome ;;
  results <- check_all driver (map r_URL (rows df)) ;;
  driver_quit driver ;;
  let checked := assign_results (rows df) results in
  db_df <- get_all_asins ;;
  let merged :=
    if has_id_column df then checked else merge_left_on_URL checked db_df in
  let kept := filter id_notnull merged in
  for_each kept update_status_columns ;;
  ret (mkDataFrame true kept).

End Program.

(** ** Vocabulary of the properties *)

(** [below n m]: the node [n] is [m] or lies somewhere under it. *)
Inductive below : node -> node -> Prop :=
| below_self : forall m, below m m
| below_child : forall n c name i cls children,
    In c children -> below n c -> below n (Tag name i cls children).

(** [n] is present somewhere in the markup. *)
Definition in_markup (n : node) (doc : soup) : Prop :=
  exists m, In m doc /\ below n m.

Definition is_tag (n : node) : Prop :=
  match n with Tag _ _ _ _ => True | Text _ => False end.

(** An add-to-cart or buy-now affordance: one of the two fixed identifiers
    on one of the two element kinds. *)
Definition purchase_affordance (n : node) : Prop :=
  (tag_name n = "input" \/ tag_name n = "button") /\
  (tag_id n = Some "add-to-cart-button" \/ tag_id n = Some "buy-now-button").

(** No price element of the fixed list has a text. *)
Definition no_priced_id (doc : soup) : Prop :=
  forall pid, In pid price_ids -> has_text (find_by_id doc pid) = false.

(** A page whose price is shown as a whole part [1,299.] (the point in an
    element of its own, as the shop writes it) and a fraction [99]. *)
Definition whole_fraction_page : soup :=
  [ Tag "div" (Some "corePrice") []
      [ Tag "span" None ["a-price"]
          [ Tag "span" None ["a-price-whole"]
              [ Text "1,299"; Tag "span" None ["a-price-decimal"] [Text "."] ];
            Tag "span" None ["a-price-fraction"] [Text "99"] ] ] ].

(** A product identifier as the patterns of the source want it: ten
    characters, each an upper-case letter or a digit. *)
Definition asin_id (id : string) : Prop :=
  String.length id = 10 /\ PyStr.forall_chars Re.asin_char id = true.

(** The literal [lit] followed by the identifier [id] stands in [url] at
    offset [n]. *)
Definition literal_at (lit url : string) (n : nat) (id : string) : Prop :=
  exists pre post,
    url = (pre ++ lit ++ id ++ post)%string /\ String.length pre = n /\ asin_id id.

(** [/dp/<id>] or [/gp/product/<id>] stands in [url] at offset [n]. *)
Definition pattern_at (url : string) (n : nat) (id : string) : Prop :=
  literal_at "/dp/" url n id \/ literal_at "/gp/product/" url n id.

(** The value of [match.group(1) or match.group(2)]. *)
Definition group_of (m : Re.match2) : option string :=
  py_or (Re.group1 m) (Re.group2 m).

(** The test of the fallback fails on a segment. *)
Definition not_ten_alnum (part : string) : Prop := ten_alnum part = false.

Definition not_char (c a : ascii) : bool := negb (Ascii.eqb a c).

(** The path segments the fallback of [extract_asin] scans. *)
Definition segments (url : string) : list string :=
  PyStr.split "/" (PyStr.strip_char "/" url).

(** A parser that knows a few pages and sees nothing in any other markup;
    the empty markup has no element. *)
Fixpoint parser_of (pages : list (string * soup)) (html : string) : soup :=
  match pages with
  | [] => []
  | (h, doc) :: rest =>
      if PyStr.is_empty html then []
      else if String.eqb h html then doc
      else parser_of rest html
  end.

(** *** The runner, phase by phase *)

(** Whether a session is open: [None] when the driver names no session. *)
Definition session_open (w : world) (driver : nat) : option bool :=
  option_map is_open (nth_error (sessions w) driver).

(** The page a navigation leaves [get_final_url_and_html] with: none when
    the driver failed. *)
Definition page_after (url : string) (nav : navigation) : option (string * string) :=
  match nav with
  | Loaded final_url html => Some (final_url, html)
  | TimedOut => Some (url, "")
  | Crashed => None
  end.

(** The world after one navigation of an open session. *)
Definition world_after_navigation (driver : nat) (url : string) (nav : navigation)
    (w : world) : world :=
  let w' := set_visited (visited w ++ [url]) w in
  match nav with
  | Loaded final_url html =>
      set_sessions (list_set (sessions w) driver (mkSession true final_url html)) w'
  | TimedOut | Crashed => w'
  end.

(** The result of a row whose page was fetched. *)
Definition result_for (BeautifulSoup : string -> soup) (input_url : string)
    (page : string * string) : check_result :=
  let f := reconcile (extract_asin_from_url input_url)
             (extract_asin_from_url (fst page))
             (is_orderable_from_html BeautifulSoup (snd page)) in
  mkResult (fst page) (extract_price_from_html BeautifulSoup (snd page))
    (is_redirect f) (is_unavailable f) (orderable f).

(** The results of the fetch loop when the web answers the [n]-th
    navigation and the following ones: none when some navigation fails
    otherwise than by timing out. *)
Fixpoint fetched (BeautifulSoup : string -> soup) (web : nat -> string -> navigation)
    (n : nat) (urls : list string) : option (list check_result) :=
  match urls with
  | [] => Some []
  | url :: rest =>
      match page_after url (web n url) with
      | Some page =>
          option_map (cons (result_for BeautifulSoup url page))
            (fetched BeautifulSoup web (S n) rest)
      | None => None
      end
  end.

(** The world the fetch loop leaves. *)
Fixpoint world_after_fetch (web : nat -> string -> navigation) (driver : nat)
    (urls : list string) (w : world) : world :=
  match urls with
  | [] => w
  | url :: rest =>
      let nav := web (length (visited w)) url in
      let w1 := world_after_navigation driver url nav w in
      match nav with
      | Crashed => w1
      | Loaded _ _ | TimedOut => world_after_fetch web driver rest w1
      end
  end.

(** The rows the runner persists: the checked rows, merged with the store
    when the frame has no identity column, without those of null
    identity. *)
Definition kept_rows (df : DataFrame) (results : list check_result)
    (db_df : list product) : list row :=
  let checked := assign_results (rows df) results in
  filter id_notnull
    (if has_id_column df then checked else merge_left_on_URL checked db_df).

(** The table after the rows [rs] were written one after the other, the
    first one at the reading [c] of the clock. *)
Fixpoint written (now : nat -> string) (rs : list row) (c : nat)
    (table : list product) : list product :=
  match rs with
  | [] => table
  | r :: rest =>
      match r_id r with
      | Some i =>
          written now rest (S c)
            (map (fun p => if Z.eqb (p_id p) i then set_status r (now c) p else p)
               table)
      | None => written now rest c table
      end
  end.

(** The result columns of a stored record are those of the row [r]. *)
Definition has_status_of (r : row) (p : product) : Prop :=
  p_Final_URL p = r_Final_URL r /\ p_Price p = r_Price r /\
  p_Is_Redirect p = r_Is_Redirect r /\ p_Is_Unavailable p = r_Is_Unavailable r /\
  p_Orderable p = r_Orderable r.

(** Pages of the shop as the witnesses of the properties use them: the
    raw markup and what the parser makes of it. *)
Definition fixed_id_html : string :=
  "<span id='priceblock_ourprice'> $19.99</span><span class='a-price-whole'>5.</span>".

Definition fixed_id_page : soup :=
  [ Tag "span" (Some "priceblock_ourprice") [] [Text " $19.99"];
    Tag "span" None ["a-price-whole"] [Text "5."] ].

Definition whole_fraction_html : string :=
  "<div id='corePrice'><span class='a-price'><span class='a-price-whole'>1,299<span class='a-price-decimal'>.</span></span><span class='a-price-fraction'>99</span></span></div>".

Definition whole_only_html : string :=
  "<span class='a-price-whole'>5.</span>".

Definition whole_only_page : soup :=
  [ Tag "span" None ["a-price-whole"] [Text "5."] ].

Definition blank_id_html : string :=
  "<span id='priceblock_ourprice'> </span><span class='a-price-whole'>5.</span>".

Definition blank_id_page : soup :=
  [ Tag "span" (Some "priceblock_ourprice") [] [Text " "];
    Tag "span" None ["a-price-whole"] [Text "5."] ].

Definition offscreen_html : string :=
  "<span class='a-offscreen'>$7.50</span>".

Definition offscreen_page : soup :=
  [ Tag "span" None ["a-offscreen"] [Text "$7.50"] ].

Definition buybox_html : string :=
  "<span id='price_inside_buybox'>19.99</span><input id='add-to-cart-button'>".

Definition buybox_page : soup :=
  [ Tag "span" (Some "price_inside_buybox") [] [Text "19.99"];
    Tag "input" (Some "add-to-cart-button") [] [] ].

Definition shop_pages : list (string * soup) :=
  [ (fixed_id_html, fixed_id_page);
    (whole_fraction_html, whole_fraction_page);
    (whole_only_html, whole_only_page);
    (offscreen_html, offscreen_page);
    (blank_id_html, blank_id_page);
    (buybox_html, buybox_page) ].

Definition shop_parser : string -> soup := parser_of shop_pages.

(** A small world for the witnesses: three listings in the catalog, a web
    in which the first loads as it is, the second times out, the third makes
    the driver fail and every other address lands on a fourth listing. *)
Definition listing (i : Z) (asin url : string) : product :=
  mkProduct i (Some asin) url "Towels" "L" "Blue" "Acme"
    None None None None None None.

Definition example_catalog : list product :=
  [ listing 1 "B000123456" "https://x/dp/B000123456";
    listing 2 "B000111111" "https://x/dp/B000111111";
    listing 3 "B000222222" "https://x/dp/B000222222" ].

Definition example_world : world := mkWorld example_catalog 4 [] [] 0 0.

Definition example_web (n : nat) (url : string) : navigation :=
  if String.eqb url "https://x/dp/B000123456" then Loaded url buybox_html
  else if String.eqb url "https://x/dp/B000111111" then TimedOut
  else if String.eqb url "https://x/dp/B000222222" then Crashed
  else Loaded "https://x/dp/B000999999" "<html></html>".

Definition example_clock (n : nat) : string :=
  if Nat.eqb n 0 then "2025-01-01 10:00:00" else "2025-01-01 10:00:09".

Definition never_fails (n : nat) : bool := false.

(** A row of a frame before the check. *)
Definition unchecked (i : option Z) (url : string) : row :=
  mkRow i url None None None None None.


(** The database refuses the write statement number [k] (from 0). *)
Definition fails_at (k n : nat) : bool := Nat.eqb n k.

(** Frames of the witnesses. *)
Definition crashing_batch : DataFrame :=
  mkDataFrame true
    [ unchecked (Some 1%Z) "https://x/dp/B000123456";
      unchecked (Some 3%Z) "https://x/dp/B000222222" ].

Definition timing_out_batch : DataFrame :=
  mkDataFrame true
    [ unchecked (Some 1%Z) "https://x/dp/B000123456";
      unchecked (Some 2%Z) "https://x/dp/B000111111" ].




(** ** More of the program: catalog edits, bulk upload, login, summary *)

Section Catalog.

Variable db_fails : nat -> bool.

(** The [DELETE ... WHERE id = :id] of [delete_asin]. *)
Definition delete_where_id (i : Z) (w : world) : world :=
  set_asins (filter (fun p => negb (Z.eqb (p_id p) i)) (asins w)) w.

(** [delete_asin(id)], lines 217-219. *)
Definition delete_asin (i : Z) : M unit :=
  execute db_fails (delete_where_id i).

(** The [SET] clause of [update_asin]: the six catalog columns. *)
Definition set_catalog (asin : option string) (url collection size color customer : string)
    (p : product) : product :=
  mkProduct (p_id p) asin url collection size color customer
    (p_Final_URL p) (p_Price p) (p_Is_Redirect p) (p_Is_Unavailable p)
    (p_Orderable p) (p_Last_Checked p).

(** [update_asin(id, asin, url, collection, size, color, customer)], lines
    221-239. *)
Definition update_asin (i : Z) (asin : option string)
    (url collection size color customer : string) : M unit :=
  execute db_fails
    (fun w =>
       set_asins
         (map (fun p => if Z.eqb (p_id p) i
                        then set_catalog asin url collection size color customer p
                        else p)
            (asins w)) w).

(** The loop of [add_asins_bulk], lines 205-214, with its two counters.  The
    frame [df_all] is the one read before the loop. *)
Fixpoint bulk_loop (df_all : list product) (upload : list row_dict)
    (added skipped : nat) : M (nat * nat) :=
  match upload with
  | [] => ret (added, skipped)
  | d :: rest =>
      if url_in (d_URL d) df_all then bulk_loop df_all rest added (S skipped)
      else
        result <- add_asin_row db_fails d ;;
        if result then bulk_loop df_all rest (S added) skipped
        else bulk_loop df_all rest added skipped
  end.

(** [add_asins_bulk(df_upload)], lines 200-215, on an upload that has the
    five catalog columns with a text in every cell of them, and on a
    database that answers the statements of lines 201-203; as for
    [add_asin_row], only the failure of an [INSERT] is followed. *)
Definition add_asins_bulk (df_upload : list row_dict) : M (nat * nat) :=
  ensure_table ;;
  ensure_status_columns ;;
  df_all <- get_all_asins ;;
  bulk_loop df_all df_upload 0 0.

End Catalog.

(** *** Login *)

(** [st.session_state], with the keys the login uses; a key that is absent
    is [None].  The two text inputs always hold a string. *)
Record session_state : Type := mkSessionState {
  logged_in : option bool;
  login_success : option bool;
  login_error : option string;
  login_username : string;
  login_password : string
}.

(** [do_login()], lines 403-410. *)
Definition do_login (st : session_state) : session_state :=
  if String.eqb (login_username st) "admin"
     && String.eqb (login_password st) "password123"
  then mkSessionState (Some true) (Some true) (login_error st)
         (login_username st) (login_password st)
  else mkSessionState (logged_in st) (login_success st)
         (Some "Invalid username or password")
         (login_username st) (login_password st).

(** What one run of the script ends with. *)
Inductive page : Type :=
| MainApp
| LoginPage (error_shown : option string)
| Rerun.

(** [login_page()], lines 412-421: an error that is set and not empty is
    shown once and reset. *)
Definition login_page (st : session_state) : page * session_state :=
  match login_error st with
  | Some e =>
      if PyStr.is_empty e then (LoginPage None, st)
      else (LoginPage (Some e),
            mkSessionState (logged_in st) (login_success st) (Some "")
              (login_username st) (login_password st))
  | None => (LoginPage None, st)
  end.

Definition truthy (b : option bool) : bool :=
  match b with Some true => true | _ => false end.

(** One run of the script from its top, lines 743-753.  What [main_app]
    draws is left out. *)
Definition entry_point (st : session_state) : page * session_state :=
  let st1 :=
    match logged_in st with
    | Some _ => st
    | None => mkSessionState (Some false) (login_success st) (login_error st)
                (login_username st) (login_password st)
    end in
  if truthy (login_success st1) then
    (Rerun,
     mkSessionState (logged_in st1) (Some false) (login_error st1)
       (login_username st1) (login_password st1))
  else if truthy (logged_in st1) then (MainApp, st1)
  else login_page st1.

(** The script with its reruns: [st.experimental_rerun()] starts the script
    again on the same session state. *)
Fixpoint script (fuel : nat) (st : session_state) : option (page * session_state) :=
  match fuel with
  | 0 => None
  | S fuel' =>
      match entry_point st with
      | (Rerun, st') => script fuel' st'
      | shown => Some shown
      end
  end.

(** *** Summary dashboard *)

(** The rows of one group of [groupby(["Collection Name", "Customer"])]. *)
Definition group_of_summary (collection customer : string) (table : list product)
    : list product :=
  filter (fun p => String.eqb (p_Collection_Name p) collection
                   && String.eqb (p_Customer p) customer) table.

Definition orderable_is (v : string) (p : product) : bool :=
  match p_Orderable p with Some x => String.eqb x v | None => false end.

(** The two counts of lines 706-707 for one group: [Orderable], the records
    whose flag is the word Yes, and [Non_Orderable], those whose flag is the
    word No.  [Total_SKU] (the URL cells of the group that are not null),
    the order of the groups and the percentage, a float, are left out. *)
Definition summary_counts (collection customer : string) (table : list product)
    : nat * nat :=
  let g := group_of_summary collection customer table in
  (length (filter (orderable_is "Yes") g), length (filter (orderable_is "No") g)).

(** *** The price as the results tab shows it *)

(** The lambda of line 647:
    [f"${x}" if pd.notnull(x) and str(x).strip() != "" else ""]. *)
Definition display_price (x : option string) : string :=
  match x with
  | Some price =>
      if negb (PyStr.is_empty (PyStr.strip price)) then ("$" ++ price)%string else ""
  | None => ""
  end.

(** *** Vocabulary of the further properties *)

(** The catalog columns of a record: everything a status check leaves
    alone. *)
Definition catalog_columns (p : product)
    : Z * option string * string * string * string * string * string :=
  (p_id p, p_ASIN p, p_URL p, p_Collection_Name p, p_Size p, p_Color p, p_Customer p).

(** The result columns of a record: everything a catalog edit leaves
    alone. *)
Definition result_columns (p : product)
    : option string * option string * option string * option string
      * option string * option string :=
  (p_Final_URL p, p_Price p, p_Is_Redirect p, p_Is_Unavailable p, p_Orderable p,
   p_Last_Checked p).

(** Identities are those [AUTOINCREMENT] gave: all different and below the
    next one. *)
Definition ids_fresh (w : world) : Prop :=
  NoDup (map p_id (asins w)) /\ forall p, In p (asins w) -> (p_id p < next_id w)%Z.

(** The URLs of the upload that are not in the frame read before the loop,
    each once, in the order of their first occurrence. *)
Fixpoint new_urls (known : list string) (upload : list string) : list string :=
  match upload with
  | [] => []
  | u :: rest =>
      if existsb (String.eqb u) known then new_urls known rest
      else u :: new_urls (u :: known) rest
  end.

(** A row of the returned frame carries flags in words, the unavailable one
    the opposite of the orderable one, and a redirect is never orderable. *)
Definition flags_in_words (r : row) : Prop :=
  exists redirect ord : bool,
    r_Is_Redirect r = Some (yes_no redirect) /\
    r_Orderable r = Some (yes_no ord) /\
    r_Is_Unavailable r = Some (yes_no (negb ord)) /\
    (redirect = true -> ord = false).

(** The record [add_asin_row] inserts. *)
Definition inserted_record (d : row_dict) (w : world) : product :=
  mkProduct (next_id w) (extract_asin (d_URL d)) (d_URL d) (d_Collection_Name d)
    (d_Size d) (d_Color d) (d_Customer d) None None None None None None.

(** The rows of the upload that the bulk loop skips: their URL is in the
    frame read before the loop. *)
Definition skipped_rows (df_all : list product) (upload : list row_dict) : list row_dict :=
  filter (fun d => url_in (d_URL d) df_all) upload.

(** A web in which every address settles on the [/dp/] page of one
    listing, with its price and its add-to-cart button. *)
Definition settling_web (n : nat) (url : string) : navigation :=
  Loaded "https://x/dp/B000123456" buybox_html.

(** A string that [strip] leaves as it is, without dollar sign or newline. *)
Definition clean_text (s : string) : Prop :=
  PyStr.strip s = s /\
  PyStr.forall_chars (not_char "$") s = true /\
  PyStr.forall_chars (not_char newline) s = true.

(** The flags of a stored record are null, or in words and opposite. *)
Definition record_flags_consistent (p : product) : Prop :=
  (p_Orderable p = None /\ p_Is_Unavailable p = None) \/
  exists ord : bool,
    p_Orderable p = Some (yes_no ord) /\ p_Is_Unavailable p = Some (yes_no (negb ord)).

(** * Properties *)

(** ** Result reconciler *)

Lemma option_string_eqb_spec (a b : option string) :
  option_string_eqb a b = true <-> a = b.
Proof.
  destruct a as [x|], b as [y|]; simpl; split; intro H;
    try discriminate; try reflexivity.
  - apply String.eqb_eq in H. now subst.
  - injection H as ->. apply String.eqb_refl.
Qed.

Lemma reconcile_redirect (a b : option string) (raw : bool) :
  is_redirect (reconcile a b raw) = negb (option_string_eqb a b).
Proof. unfold reconcile. now destruct (option_string_eqb a b). Qed.

Lemma reconcile_complementary (a b : option string) (raw : bool) :
  is_unavailable (reconcile a b raw) = negb (orderable (reconcile a b raw)).
Proof. unfold reconcile. now destruct (option_string_eqb a b), raw. Qed.

(** What [process_asin] returns is what the reconciler makes of the two
    identifiers and of some answer of the classifier. *)
Lemma process_asin_reconciled BeautifulSoup web driver input_url w c w' :
  process_asin BeautifulSoup web driver input_url w = (Returned c, w') ->
  exists html,
    c_price c = extract_price_from_html BeautifulSoup html /\
    let f := reconcile (extract_asin_from_url input_url)
               (extract_asin_from_url (c_final_url c))
               (is_orderable_from_html BeautifulSoup html) in
    c_is_redirect c = is_redirect f /\
    c_is_unavailable c = is_unavailable f /\
    c_orderable c = orderable f.
Proof.
  unfold process_asin, bind.
  destruct (get_final_url_and_html web driver input_url w) as [[[fu html]|e] w1];
    simpl; [|discriminate].
  unfold ret. intro H. injection H as <- <-. exists html. simpl. auto.
Qed.

(** ** Parsed markup *)

Lemma node_induction (P : node -> Prop) :
  (forall s, P (Text s)) ->
  (forall name i cls children, Forall P children -> P (Tag name i cls children)) ->
  forall n, P n.
Proof.
  intros HText HTag. fix IH 1. intros [s | name i cls children].
  - apply HText.
  - apply HTag. induction children as [|c cs IHcs]; constructor.
    + apply IH.
    + apply IHcs.
Qed.

Lemma below_text (n : node) (s : string) : below n (Text s) -> n = Text s.
Proof. intro H. now inversion H. Qed.

Lemma below_tag (n : node) name i cls children :
  below n (Tag name i cls children) ->
  n = Tag name i cls children \/ exists c, In c children /\ below n c.
Proof. intro H. inversion H; subst; eauto. Qed.

(** [tags_of] lists exactly the tags at or under a node. *)
Lemma in_tags_of (n m : node) : In n (tags_of m) <-> below n m /\ is_tag n.
Proof.
  revert n. induction m as [s | name i cls children IH] using node_induction; intro n.
  - simpl. split; [tauto|]. intros [H T]. apply below_text in H. now subst.
  - rewrite Forall_forall in IH. simpl. rewrite in_flat_map. split.
    + intros [<- | (c & Hc & Hn)].
      * split; [constructor | exact I].
      * apply IH in Hn; [|exact Hc]. destruct Hn as [Hb Ht].
        split; [econstructor; eauto | exact Ht].
    + intros [Hb Ht]. apply below_tag in Hb. destruct Hb as [-> | (c & Hc & Hb)].
      * now left.
      * right. exists c. split; [exact Hc|]. apply IH; auto.
Qed.

Lemma in_all_tags (n : node) (doc : soup) :
  In n (all_tags doc) <-> in_markup n doc /\ is_tag n.
Proof.
  unfold all_tags, in_markup. rewrite in_flat_map. split.
  - intros (m & Hm & Hn). apply in_tags_of in Hn. destruct Hn. eauto.
  - intros ((m & Hm & Hb) & Ht). exists m. split; [exact Hm|]. now apply in_tags_of.
Qed.

Lemma found_find (p : node -> bool) (l : list node) :
  found (find p l) = existsb p l.
Proof.
  induction l as [|x l IH]; simpl; [reflexivity|].
  destruct (p x); simpl; [reflexivity | exact IH].
Qed.

(** ** Availability classifier: orderable *)

(** The phrase scan answers false on every markup and every list of
    phrases. *)
Lemma phrase_scan_false (html : string) (msgs : list string) :
  phrase_scan html msgs = false.
Proof.
  induction msgs as [|msg rest IH]; simpl; [reflexivity|].
  now destruct (PyStr.contains _ _).
Qed.

Lemma has_id_true (i : string) (n : node) : has_id i n = true <-> tag_id n = Some i.
Proof.
  unfold has_id. destruct (tag_id n) as [j|]; [|split; discriminate].
  rewrite String.eqb_eq. split; [now intros -> | now intros [= ->]].
Qed.

Lemma find_by_name_id_found (doc : soup) (name i : string) :
  found (find_by_name_id doc name i) = true <->
  exists n, in_markup n doc /\ tag_name n = name /\ tag_id n = Some i /\ is_tag n.
Proof.
  unfold find_by_name_id. rewrite found_find, existsb_exists. split.
  - intros (n & Hin & Hp). apply andb_true_iff in Hp. destruct Hp as [Hn Hi].
    apply String.eqb_eq in Hn. apply has_id_true in Hi.
    apply in_all_tags in Hin. destruct Hin. eauto 6.
  - intros (n & Hin & Hn & Hi & Ht). exists n. split.
    + apply in_all_tags; auto.
    + apply andb_true_iff. split; [now apply String.eqb_eq | now apply has_id_true].
Qed.

Lemma affordance_is_tag (n : node) : purchase_affordance n -> is_tag n.
Proof.
  intros [[H | H] _]; destruct n; simpl in *; try exact I; discriminate.
Qed.

(** One of the four lookups of the classifier found its element: that
    element is an affordance. *)
Ltac affordance_found E :=
  apply find_by_name_id_found in E;
  destruct E as (?n & ? & ? & ? & ?);
  exists n; unfold purchase_affordance; auto.

(** An affordance of the given kind and identifier makes its lookup
    succeed. *)
Ltac lookup_succeeds doc name i :=
  let E := fresh "E" in
  assert (E : found (find_by_name_id doc name i) = true)
    by (apply find_by_name_id_found; eauto 6);
  rewrite E; now rewrite ?orb_true_r.

Lemma orderable_of_soup_spec (doc : soup) (html : string) :
  orderable_of_soup doc html = true <->
  exists n, in_markup n doc /\ purchase_affordance n.
Proof.
  unfold orderable_of_soup. rewrite phrase_scan_false.
  split.
  - intro H.
    destruct (found (find_by_name_id doc "input" "add-to-cart-button")) eqn:E1;
      [affordance_found E1|].
    destruct (found (find_by_name_id doc "input" "buy-now-button")) eqn:E2;
      [affordance_found E2|].
    destruct (found (find_by_name_id doc "button" "add-to-cart-button")) eqn:E3;
      [affordance_found E3|].
    destruct (found (find_by_name_id doc "button" "buy-now-button")) eqn:E4;
      [affordance_found E4|].
    discriminate.
  - intros (n & Hin & Ha). pose proof (affordance_is_tag n Ha) as Ht.
    destruct Ha as [[Hn | Hn] [Hi | Hi]].
    + lookup_succeeds doc "input" "add-to-cart-button".
    + lookup_succeeds doc "input" "buy-now-button".
    + lookup_succeeds doc "button" "add-to-cart-button".
    + lookup_succeeds doc "button" "buy-now-button".
Qed.

(** C4. The classifier answers true exactly when an add-to-cart or buy-now
    affordance (an [input] or a [button] with one of the two identifiers) is
    present somewhere in the parsed markup, hence false when there is none;
    and on one parsed markup the answer is the same whatever raw text the
    phrase scan reads, so no unavailability phrase changes it. *)
Theorem orderable_iff_affordance :
  forall (BeautifulSoup : string -> soup) (html : string),
    (is_orderable_from_html BeautifulSoup html = true <->
     exists n, in_markup n (BeautifulSoup html) /\ purchase_affordance n) /\
    (is_orderable_from_html BeautifulSoup html = false <->
     ~ exists n, in_markup n (BeautifulSoup html) /\ purchase_affordance n) /\
    (forall scanned : string,
       orderable_of_soup (BeautifulSoup html) scanned =
       is_orderable_from_html BeautifulSoup html) /\
    phrase_scan html unavailable_texts = false.
Proof.
  intros BS html. unfold is_orderable_from_html.
  split; [apply orderable_of_soup_spec|].
  split.
  - rewrite <- orderable_of_soup_spec with (html := html).
    now destruct (orderable_of_soup (BS html) html).
  - split; [|apply phrase_scan_false].
    intro scanned. unfold orderable_of_soup. now rewrite !phrase_scan_false.
Qed.

(** ** Availability classifier: price *)


Lemma price_by_ids_none (doc : soup) (pids : list string) :
  (forall pid, In pid pids -> has_text (find_by_id doc pid) = false) ->
  price_by_ids doc pids = None.
Proof.
  induction pids as [|pid rest IH]; intro H; simpl; [reflexivity|].
  pose proof (H pid (or_introl eq_refl)) as Hp.
  destruct (find_by_id doc pid) as [el|].
  - rewrite Hp. apply IH. intros q Hq. apply H. now right.
  - apply IH. intros q Hq. apply H. now right.
Qed.


Lemma price_of_soup_whole (doc : soup) (w : node) :
  no_priced_id doc ->
  find_by_name_class doc "span" "a-price-whole" = Some w ->
  price_of_soup doc =
  (whole_part w ++ "." ++
   fraction_part (find_by_name_class doc "span" "a-price-fraction"))%string.
Proof.
  intros Hno Hw. unfold price_of_soup.
  rewrite (price_by_ids_none doc price_ids Hno). now rewrite Hw.
Qed.


(** *** The whole part *)

Lemma remove_char_gone (c : ascii) (s : string) :
  PyStr.forall_chars (not_char c) (PyStr.remove_char c s) = true.
Proof.
  induction s as [|a s IH]; simpl; [reflexivity|].
  destruct (Ascii.eqb a c) eqn:E; [exact IH|].
  simpl. unfold not_char at 1. now rewrite E.
Qed.

Lemma remove_char_keeps (p : ascii -> bool) (c : ascii) (s : string) :
  PyStr.forall_chars p s = true ->
  PyStr.forall_chars p (PyStr.remove_char c s) = true.
Proof.
  induction s as [|a s IH]; simpl; [reflexivity|].
  intro H. apply andb_true_iff in H. destruct H as [Ha Hs].
  destruct (Ascii.eqb a c); [auto|]. simpl. now rewrite Ha, IH.
Qed.

Lemma drop_last_keeps (p : ascii -> bool) (s : string) :
  PyStr.forall_chars p s = true ->
  PyStr.forall_chars p (PyStr.drop_last s) = true.
Proof.
  induction s as [|a s IH]; [reflexivity|].
  intro H. simpl in H. apply andb_true_iff in H. destruct H as [Ha Hs].
  destruct s as [|b s]; [reflexivity|].
  change (PyStr.drop_last (String a (String b s)))
    with (String a (PyStr.drop_last (String b s))).
  simpl PyStr.forall_chars at 1. rewrite Ha. now apply IH.
Qed.

(** A string that ends with [c] is what [s[:-1]] leaves, and then [c]. *)
Lemma endswith_drop_last (c : ascii) (s : string) :
  PyStr.endswith_char c s = true ->
  s = (PyStr.drop_last s ++ String c "")%string.
Proof.
  induction s as [|a s IH]; [discriminate|].
  destruct s as [|b s].
  - simpl. intro H. apply Ascii.eqb_eq in H. now subst.
  - intro H.
    change (PyStr.endswith_char c (String a (String b s)))
      with (PyStr.endswith_char c (String b s)) in H.
    change (PyStr.drop_last (String a (String b s)))
      with (String a (PyStr.drop_last (String b s))).
    simpl String.append. f_equal. now apply IH.
Qed.

(** C10. In the whole-plus-fraction fallback the whole part is the element's
    text without surrounding white space, without any comma or dollar sign,
    and without one final point: it holds no comma, and when the text so
    cleaned ends with a point it is the whole part followed by that point.
    The price is the whole part, a point and the fraction, so the page that
    shows [1,299.] and [99] gives [1299.99]. *)
Theorem whole_part_separators :
  forall (BeautifulSoup : string -> soup) (html : string) (w : node),
    let doc := BeautifulSoup html in
    let cleaned :=
      PyStr.remove_char "$" (PyStr.remove_char "," (PyStr.strip (text w))) in
    PyStr.forall_chars (not_char ",") (whole_part w) = true /\
    (PyStr.endswith_char "." cleaned = true ->
     cleaned = (whole_part w ++ ".")%string) /\
    (PyStr.endswith_char "." cleaned = false -> whole_part w = cleaned) /\
    (no_priced_id doc ->
     find_by_name_class doc "span" "a-price-whole" = Some w ->
     extract_price_from_html BeautifulSoup html =
     (whole_part w ++ "." ++
      fraction_part (find_by_name_class doc "span" "a-price-fraction"))%string) /\
    price_of_soup whole_fraction_page = "1299.99" /\
    price_of_soup
      [ Tag "span" None ["a-price-whole"] [Text "1,299."];
        Tag "span" None ["a-price-fraction"] [Text "99"] ] = "1299.99".
Proof.
  intros BS html w doc cleaned.
  assert (Hc : PyStr.forall_chars (not_char ",") cleaned = true).
  { subst cleaned. apply remove_char_keeps, remove_char_gone. }
  unfold whole_part. fold cleaned.
  split; [|split; [|split; [|split; [|split]]]].
  - destruct (PyStr.endswith_char "." cleaned); [now apply drop_last_keeps | exact Hc].
  - intro E. rewrite E. now apply endswith_drop_last.
  - intro E. now rewrite E.
  - intros Hno Hw. unfold extract_price_from_html. fold doc.
    now rewrite (price_of_soup_whole doc w Hno Hw).
  - reflexivity.
  - reflexivity.
Qed.

(** ** Strings *)

Local Open Scope string_scope.

Lemma append_assoc (a b c : string) : (a ++ b) ++ c = a ++ (b ++ c).
Proof. induction a as [|x a IH]; simpl; [reflexivity | now rewrite IH]. Qed.

Lemma append_length (a b : string) :
  String.length (a ++ b) = String.length a + String.length b.
Proof. induction a as [|x a IH]; simpl; [reflexivity | now rewrite IH]. Qed.

Lemma drop_append (pre s : string) : PyStr.drop (String.length pre) (pre ++ s) = s.
Proof. induction pre as [|x pre IH]; simpl; [reflexivity | exact IH]. Qed.

(** Within the string, [s[n:]] is what is left after a prefix of length
    [n]. *)
Lemma drop_split (n : nat) (s : string) :
  n <= String.length s ->
  exists pre, s = pre ++ PyStr.drop n s /\ String.length pre = n.
Proof.
  revert s. induction n as [|n IH]; intros s Hn.
  - exists "". split; reflexivity.
  - destruct s as [|x s]; simpl in Hn; [lia|].
    destruct (IH s) as (pre & Hs & Hl); [lia|].
    exists (String x pre). simpl. split; [now rewrite <- Hs | now rewrite Hl].
Qed.

Lemma drop_beyond (n : nat) (s : string) :
  String.length s <= n -> PyStr.drop n s = "".
Proof.
  revert s. induction n as [|n IH]; intros s Hn.
  - destruct s; simpl in *; [reflexivity | lia].
  - destruct s as [|x s]; simpl in *; [reflexivity | apply IH; lia].
Qed.

Lemma after_prefix_spec (p s rest : string) :
  PyStr.after_prefix p s = Some rest <-> s = p ++ rest.
Proof.
  revert s. induction p as [|a p IH]; intro s; simpl.
  - split; [now intros [= ->] | now intros ->].
  - destruct s as [|b s]; [split; discriminate|].
    destruct (Ascii.eqb a b) eqn:E.
    + apply Ascii.eqb_eq in E. subst b. rewrite IH.
      split; [now intros -> | now intros [= ->]].
    + apply Ascii.eqb_neq in E. split; [discriminate | intros [= ? ?]; congruence].
Qed.

(** ** Regular expressions *)

Lemma class_times_spec (n : nat) (s g : string) :
  Re.class_times n s = Some g <->
  String.length g = n /\ PyStr.forall_chars Re.asin_char g = true /\
  exists rest, s = g ++ rest.
Proof.
  revert s g. induction n as [|n IH]; intros s g; simpl.
  - split.
    + intros [= <-]. repeat split. now exists s.
    + intros (Hl & _ & _). destruct g; [reflexivity | discriminate].
  - destruct s as [|c s].
    + split; [discriminate|]. intros (Hl & _ & rest & Hs). destruct g; discriminate.
    + split.
      * destruct (Re.asin_char c) eqn:Ec; [|discriminate].
        destruct (Re.class_times n s) as [g'|] eqn:Eg; [|discriminate].
        intros [= <-]. apply IH in Eg. destruct Eg as (Hl & Hc & rest & ->).
        simpl. rewrite Ec, Hc, Hl. repeat split. now exists rest.
      * intros (Hl & Hc & rest & Hs). destruct g as [|x g]; [discriminate|].
        simpl in Hl, Hc, Hs. injection Hs as <- ->.
        apply andb_true_iff in Hc. destruct Hc as [Hx Hc]. rewrite Hx.
        assert (E : Re.class_times n (g ++ rest) = Some g).
        { apply IH. repeat split; [lia | exact Hc | now exists rest]. }
        now rewrite E.
Qed.

Lemma literal_then_group_spec (lit s g : string) :
  Re.literal_then_group lit s = Some g <->
  asin_id g /\ exists post, s = lit ++ g ++ post.
Proof.
  unfold Re.literal_then_group, asin_id. split.
  - destruct (PyStr.after_prefix lit s) as [rest|] eqn:E; [|discriminate].
    apply after_prefix_spec in E. intro H. apply class_times_spec in H.
    destruct H as (Hl & Hc & post & Hr). repeat split; auto.
    exists post. now rewrite E, Hr.
  - intros ((Hl & Hc) & post & Hs).
    assert (E : PyStr.after_prefix lit s = Some (g ++ post))
      by now apply after_prefix_spec.
    rewrite E. apply class_times_spec. repeat split; auto. now exists post.
Qed.

(** [search] answers with the match at the least offset that has one. *)
Lemma search_some {A : Type} (f : string -> option A) (s : string) (m : A) :
  Re.search f s = Some m ->
  exists n, n <= String.length s /\ f (PyStr.drop n s) = Some m /\
            forall k, k < n -> f (PyStr.drop k s) = None.
Proof.
  induction s as [|c s IH]; simpl.
  - destruct (f "") eqn:E; [|discriminate]. intros [= <-].
    exists 0. repeat split; [lia | exact E | intros; lia].
  - destruct (f (String c s)) eqn:E.
    + intros [= <-]. exists 0. repeat split; [lia | exact E | intros; lia].
    + intro H. destruct (IH H) as (n & Hn & Hf & Hmin).
      exists (S n). repeat split; [lia | exact Hf |].
      intros [|k] Hk; [exact E | apply Hmin; lia].
Qed.

Lemma search_none {A : Type} (f : string -> option A) (s : string) :
  Re.search f s = None -> forall n, f (PyStr.drop n s) = None.
Proof.
  induction s as [|c s IH]; simpl.
  - destruct (f "") eqn:E; [discriminate|]. intros _ [|n]; exact E.
  - destruct (f (String c s)) eqn:E; [discriminate|].
    intros H [|n]; [exact E | now apply IH].
Qed.

(** ** URL/ASIN extractor *)

Lemma literal_at_iff (lit url : string) (n : nat) (id : string) :
  literal_at lit url n id <->
  n <= String.length url /\ Re.literal_then_group lit (PyStr.drop n url) = Some id.
Proof.
  unfold literal_at. split.
  - intros (pre & post & -> & <- & Hid). split.
    + rewrite append_length. lia.
    + rewrite drop_append. apply literal_then_group_spec. split; [exact Hid|].
      now exists post.
  - intros [Hn H]. apply literal_then_group_spec in H. destruct H as (Hid & post & Hd).
    destruct (drop_split n url Hn) as (pre & Hs & Hl).
    exists pre, post. rewrite <- Hd. auto.
Qed.

Lemma asin_id_not_empty (g : string) : asin_id g -> PyStr.is_empty g = false.
Proof. intros [Hl _]. now destruct g. Qed.

Lemma dp_or_gp_at_some (s : string) (m : Re.match2) :
  Re.dp_or_gp_at s = Some m ->
  exists g, group_of m = Some g /\
            (Re.literal_then_group "/dp/" s = Some g \/
             Re.literal_then_group "/gp/product/" s = Some g).
Proof.
  unfold Re.dp_or_gp_at, group_of.
  destruct (Re.literal_then_group "/dp/" s) as [g|] eqn:E1.
  - intros [= <-]. exists g. simpl. split; [|now left].
    apply literal_then_group_spec in E1. destruct E1 as [Hid _].
    now rewrite (asin_id_not_empty g Hid).
  - destruct (Re.literal_then_group "/gp/product/" s) as [g|] eqn:E2; [|discriminate].
    intros [= <-]. exists g. simpl. split; [reflexivity | now right].
Qed.

Lemma dp_or_gp_at_complete (s g : string) :
  Re.literal_then_group "/dp/" s = Some g \/
  Re.literal_then_group "/gp/product/" s = Some g ->
  exists m, Re.dp_or_gp_at s = Some m /\ group_of m = Some g.
Proof.
  unfold Re.dp_or_gp_at, group_of. intros [H | H].
  - rewrite H. eexists. split; [reflexivity|]. simpl.
    apply literal_then_group_spec in H. destruct H as [Hid _].
    now rewrite (asin_id_not_empty g Hid).
  - assert (E : Re.literal_then_group "/dp/" s = None).
    { apply literal_then_group_spec in H. destruct H as (_ & post & ->).
      reflexivity. }
    rewrite E, H. eexists. split; reflexivity.
Qed.

(** The match of the two-way pattern at the head of [url[n:]] is a pattern
    standing at offset [n]. *)
Lemma pattern_at_iff (url : string) (n : nat) (id : string) :
  pattern_at url n id <->
  n <= String.length url /\
  exists m, Re.dp_or_gp_at (PyStr.drop n url) = Some m /\ group_of m = Some id.
Proof.
  unfold pattern_at. rewrite !literal_at_iff. split.
  - intros [[Hn H] | [Hn H]]; (split; [exact Hn|]); apply dp_or_gp_at_complete; auto.
  - intros (Hn & m & Hm & Hg). apply dp_or_gp_at_some in Hm.
    destruct Hm as (g & Hg' & H). assert (g = id) by congruence. subst g.
    destruct H; auto.
Qed.

(** When a pattern stands in the URL, the search finds the leftmost one. *)
Lemma search_leftmost {A : Type} (f : string -> option A) (url : string)
    (n : nat) (m : A) :
  f (PyStr.drop n url) = Some m ->
  (forall k, k < n -> f (PyStr.drop k url) = None) ->
  Re.search f url = Some m.
Proof.
  intros Hn Hmin. destruct (Re.search f url) as [m0|] eqn:E.
  - apply search_some in E. destruct E as (n0 & _ & H0 & Hmin0).
    destruct (Nat.lt_trichotomy n0 n) as [Hlt | [-> | Hgt]].
    + rewrite (Hmin n0 Hlt) in H0. discriminate.
    + congruence.
    + rewrite (Hmin0 n Hgt) in Hn. discriminate.
  - rewrite (search_none f url E n) in Hn. discriminate.
Qed.

Lemma no_pattern_at_offset (url : string) (k : nat) :
  (forall id, ~ pattern_at url k id) -> Re.dp_or_gp_at (PyStr.drop k url) = None.
Proof.
  intro H. destruct (Re.dp_or_gp_at (PyStr.drop k url)) as [m|] eqn:E; [|reflexivity].
  exfalso. destruct (le_lt_dec k (String.length url)) as [Hk | Hk].
  - destruct (dp_or_gp_at_some _ _ E) as (g & Hg & _).
    apply (H g). apply pattern_at_iff. eauto.
  - rewrite drop_beyond in E by lia. discriminate.
Qed.

Lemma no_literal_at_offset (lit url : string) (k : nat) :
  lit <> "" ->
  (forall id, ~ literal_at lit url k id) ->
  Re.literal_then_group lit (PyStr.drop k url) = None.
Proof.
  intros Hlit H.
  destruct (Re.literal_then_group lit (PyStr.drop k url)) as [g|] eqn:E; [|reflexivity].
  exfalso. destruct (le_lt_dec k (String.length url)) as [Hk | Hk].
  - apply (H g). apply literal_at_iff. auto.
  - rewrite drop_beyond in E by lia. unfold Re.literal_then_group in E.
    destruct lit; [congruence | discriminate].
Qed.

Lemma search_no_match {A : Type} (f : string -> option A) (url : string) :
  (forall k, f (PyStr.drop k url) = None) -> Re.search f url = None.
Proof.
  intro H. destruct (Re.search f url) as [m|] eqn:E; [|reflexivity].
  apply search_some in E. destruct E as (n & _ & Hn & _). rewrite H in Hn. discriminate.
Qed.

Lemma find_none_of_all_false {A : Type} (p : A -> bool) (l : list A) :
  Forall (fun x => p x = false) l -> find p l = None.
Proof.
  induction 1 as [|x l Hx _ IH]; simpl; [reflexivity | now rewrite Hx].
Qed.

(** Scanning from the end finds the last element that passes the test. *)
Lemma find_rev_last {A : Type} (p : A -> bool) (before : list A) (x : A)
    (after : list A) :
  p x = true ->
  Forall (fun y => p y = false) after ->
  find p (rev (before ++ x :: after)) = Some x.
Proof.
  intros Hx Hafter. rewrite rev_app_distr. simpl. rewrite <- app_assoc. simpl.
  apply Forall_rev in Hafter. induction Hafter as [|z l Hz _ IH]; simpl.
  - now rewrite Hx.
  - now rewrite Hz.
Qed.

Lemma split_not_nil (sep : ascii) (s : string) : PyStr.split sep s <> [].
Proof.
  induction s as [|c s IH]; simpl; [discriminate|].
  destruct (Ascii.eqb c sep); [discriminate|].
  destruct (PyStr.split sep s); [contradiction | discriminate].
Qed.

(** Joining the fields of a split with the separator gives the string
    back. *)
Lemma join_split (sep : ascii) (s : string) : PyStr.join sep (PyStr.split sep s) = s.
Proof.
  induction s as [|c s IH]; [reflexivity|].
  simpl PyStr.split. destruct (Ascii.eqb c sep) eqn:E.
  - apply Ascii.eqb_eq in E. subst c.
    pose proof (split_not_nil sep s) as Hne.
    destruct (PyStr.split sep s) as [|f fs]; [contradiction|].
    change (PyStr.join sep ("" :: f :: fs)) with ("" ++ String sep (PyStr.join sep (f :: fs))).
    now rewrite IH.
  - pose proof (split_not_nil sep s) as Hne.
    destruct (PyStr.split sep s) as [|f fs]; [contradiction|].
    destruct fs as [|f' fs].
    + simpl in *. now rewrite IH.
    + change (PyStr.join sep (String c f :: f' :: fs))
        with (String c (f ++ String sep (PyStr.join sep (f' :: fs)))).
      f_equal. exact IH.
Qed.

(** No field of a split holds the separator. *)
Lemma split_fields (sep : ascii) (s : string) :
  Forall (fun f => PyStr.forall_chars (not_char sep) f = true) (PyStr.split sep s).
Proof.
  induction s as [|c s IH]; simpl.
  - constructor; [reflexivity | constructor].
  - destruct (Ascii.eqb c sep) eqn:E.
    + constructor; [reflexivity | exact IH].
    + destruct (PyStr.split sep s) as [|f fs].
      * constructor; [|constructor]. simpl. unfold not_char. now rewrite E.
      * inversion IH as [|? ? Hf Hfs]; subst. constructor; [|exact Hfs].
        simpl. unfold not_char at 1. now rewrite E.
Qed.

Lemma extract_asin_of_search_none (url : string) :
  Re.search Re.dp_or_gp_at url = None ->
  extract_asin url =
  match find ten_alnum (rev (segments url)) with
  | Some part => Some part
  | None => Some ""
  end.
Proof. unfold extract_asin, segments. now intros ->. Qed.

Lemma no_pattern_search_none (url : string) :
  (forall n id, ~ pattern_at url n id) -> Re.search Re.dp_or_gp_at url = None.
Proof.
  intro H. apply search_no_match. intro k. apply no_pattern_at_offset. apply H.
Qed.

(** C2, as the code has it.  The identifier of the patterns is ten
    characters out of the upper-case letters and the digits.  When
    [/dp/<id>] or [/gp/product/<id>] with such an identifier stands in the
    URL, [extract_asin] returns the identifier of the leftmost occurrence;
    when neither stands anywhere, it returns the last path segment (the URL
    without its outer slashes, split on the slash) that is ten alphanumeric
    characters long, and the empty string when no segment is; it never
    returns [None] and, being total, never raises.  [extract_asin_from_url]
    knows the [/dp/] pattern only: it returns the identifier of its leftmost
    occurrence and [None] when there is none. *)
Theorem extract_asin_leftmost_pattern :
  forall url : string,
    (forall n id,
        pattern_at url n id ->
        (forall k id', k < n -> ~ pattern_at url k id') ->
        extract_asin url = Some id) /\
    (forall before part after,
        (forall n id, ~ pattern_at url n id) ->
        segments url = (before ++ part :: after)%list ->
        ten_alnum part = true ->
        Forall not_ten_alnum after ->
        extract_asin url = Some part) /\
    ((forall n id, ~ pattern_at url n id) ->
     Forall not_ten_alnum (segments url) ->
     extract_asin url = Some "") /\
    extract_asin url <> None /\
    PyStr.join "/" (segments url) = PyStr.strip_char "/" url /\
    (forall n id,
        literal_at "/dp/" url n id ->
        (forall k id', k < n -> ~ literal_at "/dp/" url k id') ->
        extract_asin_from_url url = Some id) /\
    ((forall n id, ~ literal_at "/dp/" url n id) ->
     extract_asin_from_url url = None).
Proof.
  intro url. split; [|split; [|split; [|split; [|split; [|split]]]]].
  - intros n id Hn Hmin. apply pattern_at_iff in Hn.
    destruct Hn as (_ & m & Hm & Hg).
    assert (E : Re.search Re.dp_or_gp_at url = Some m).
    { apply search_leftmost with (n := n); [exact Hm|].
      intros k Hk. apply no_pattern_at_offset. intros id'. now apply Hmin. }
    unfold extract_asin. rewrite E. exact Hg.
  - intros before part after Hno Hseg Hpart Hafter.
    rewrite extract_asin_of_search_none by now apply no_pattern_search_none.
    rewrite Hseg. now rewrite (find_rev_last ten_alnum before part after Hpart Hafter).
  - intros Hno Hall.
    rewrite extract_asin_of_search_none by now apply no_pattern_search_none.
    rewrite find_none_of_all_false; [reflexivity|]. now apply Forall_rev.
  - unfold extract_asin. destruct (Re.search Re.dp_or_gp_at url) as [m|] eqn:E.
    + apply search_some in E. destruct E as (n & _ & Hm & _).
      apply dp_or_gp_at_some in Hm. destruct Hm as (g & Hg & _).
      unfold group_of in Hg. rewrite Hg. discriminate.
    + destruct (find ten_alnum _); discriminate.
  - apply join_split.
  - intros n id Hn Hmin. apply literal_at_iff in Hn. destruct Hn as [_ Hn].
    assert (E : Re.search Re.dp_at url = Some id).
    { apply search_leftmost with (n := n); [exact Hn|].
      intros k Hk. apply no_literal_at_offset; [discriminate|].
      intros id'. now apply Hmin. }
    unfold extract_asin_from_url. now rewrite E.
  - intro Hno. unfold extract_asin_from_url.
    rewrite search_no_match; [reflexivity|].
    intro k. apply no_literal_at_offset; [discriminate | apply Hno].
Qed.

(** C2 as the specification words it fails: an identifier of ten
    alphanumeric characters with a lower-case letter is not matched by the
    patterns, and the fallback does not find it either when a query string
    follows. *)
Lemma extract_asin_lowercase_id :
  let url := "https://x/dp/b000123456?th=1" in
  url = "https://x" ++ "/dp/" ++ "b000123456" ++ "?th=1" /\
  String.length "b000123456" = 10 /\
  PyStr.isalnum "b000123456" = true /\
  extract_asin url = Some "" /\
  extract_asin url <> Some "b000123456" /\
  extract_asin_from_url url = None /\
  extract_asin "https://x/dp/b000123456/0123456789" = Some "0123456789".
Proof. repeat split. discriminate. Qed.

Lemma no_pattern_by_search (url : string) :
  Re.search Re.dp_or_gp_at url = None -> forall n id, ~ pattern_at url n id.
Proof.
  intros E n id H. apply pattern_at_iff in H. destruct H as (_ & m & Hm & _).
  rewrite (search_none _ _ E n) in Hm. discriminate.
Qed.

Lemma all_not_ten_alnum (l : list string) :
  forallb (fun p => negb (ten_alnum p)) l = true -> Forall not_ten_alnum l.
Proof.
  rewrite forallb_forall. intro H. apply Forall_forall. intros p Hp.
  apply H in Hp. now apply negb_true_iff in Hp.
Qed.

Lemma extract_asin_leftmost_pattern_witness :
  extract_asin "https://x/dp/B000123456?th=1" = Some "B000123456" /\
  extract_asin "https://x/item/b000123456/" = Some "b000123456" /\
  extract_asin "https://x/item/short" = Some "".
Proof.
  split; [|split].
  - apply (proj1 (extract_asin_leftmost_pattern "https://x/dp/B000123456?th=1") 9).
    + left. exists "https://x", "?th=1". repeat split.
    + intros k id' Hk Hp. apply pattern_at_iff in Hp.
      destruct Hp as (_ & m & Hm & _).
      do 9 (destruct k as [|k]; [discriminate Hm|]). lia.
  - apply (proj1 (proj2 (extract_asin_leftmost_pattern "https://x/item/b000123456/"))
             ["https:"; ""; "x"; "item"]%list "b000123456" []%list).
    + apply no_pattern_by_search. reflexivity.
    + reflexivity.
    + reflexivity.
    + constructor.
  - apply (proj1 (proj2 (proj2 (extract_asin_leftmost_pattern "https://x/item/short")))).
    + apply no_pattern_by_search. reflexivity.
    + apply all_not_ten_alnum. reflexivity.
Defined.

Lemma no_priced_id_by_scan (doc : soup) :
  forallb (fun pid => negb (has_text (find_by_id doc pid))) price_ids = true ->
  no_priced_id doc.
Proof.
  rewrite forallb_forall. intros H pid Hpid. apply H in Hpid.
  now apply negb_true_iff in Hpid.
Qed.



Lemma whole_part_separators_witness :
  let w := Tag "span" None ["a-price-whole"]%list
             [Text "1,299"; Tag "span" None ["a-price-decimal"] [Text "."]]%list in
  "1299." = whole_part w ++ "." /\
  whole_part (Tag "span" None ["a-price-whole"]%list [Text " $1,299 "]%list) = "1299" /\
  extract_price_from_html shop_parser whole_fraction_html = "1299.99".
Proof.
  intro w. split; [|split].
  - apply (proj1 (proj2 (whole_part_separators shop_parser whole_fraction_html w))).
    reflexivity.
  - apply (proj1 (proj2 (proj2 (whole_part_separators shop_parser whole_fraction_html
             (Tag "span" None ["a-price-whole"]%list [Text " $1,299 "]%list))))).
    reflexivity.
  - apply (proj1 (proj2 (proj2 (proj2
             (whole_part_separators shop_parser whole_fraction_html w))))).
    + apply no_priced_id_by_scan. reflexivity.
    + reflexivity.
Defined.

Local Open Scope list_scope.

(** ** Browser sessions *)

Lemma list_set_length {A : Type} (l : list A) (i : nat) (x : A) :
  length (list_set l i x) = length l.
Proof.
  revert i. induction l as [|h t IH]; intros [|i]; simpl; auto.
Qed.

Lemma nth_error_list_set_same {A : Type} (l : list A) (i : nat) (x y : A) :
  nth_error l i = Some y -> nth_error (list_set l i x) i = Some x.
Proof.
  revert i. induction l as [|h t IH]; intros [|i]; simpl; try discriminate; auto.
Qed.

Lemma nth_error_list_set_other {A : Type} (l : list A) (i j : nat) (x : A) :
  i <> j -> nth_error (list_set l i x) j = nth_error l j.
Proof.
  revert i j. induction l as [|h t IH]; intros [|i] [|j] H; simpl; auto; try lia.
Qed.

Lemma nth_error_new_session (l : list session) (s : session) :
  nth_error (l ++ [s]) (length l) = Some s.
Proof. rewrite nth_error_app2 by lia. now rewrite Nat.sub_diag. Qed.

(** One navigation of an open session: the page of [page_after], or the
    failure of the driver; the navigation is asked for once. *)
Lemma get_final_url_and_html_open web driver url w s :
  nth_error (sessions w) driver = Some s ->
  is_open s = true ->
  get_final_url_and_html web driver url w =
  (match page_after url (web (length (visited w)) url) with
   | Some page => Returned page
   | None => Raised WebDriverException
   end,
   world_after_navigation driver url (web (length (visited w)) url) w).
Proof.
  intros Hs Hopen.
  unfold get_final_url_and_html, try_except, bind, driver_get.
  rewrite Hs, Hopen. unfold world_after_navigation.
  destruct (web (length (visited w)) url) as [final_url html | |]; simpl; try reflexivity.
  unfold driver_current_url, driver_page_source. simpl.
  rewrite (nth_error_list_set_same _ _ _ _ Hs). simpl.
  now rewrite (nth_error_list_set_same _ _ _ _ Hs).
Qed.

Lemma process_asin_open BeautifulSoup web driver url w s :
  nth_error (sessions w) driver = Some s ->
  is_open s = true ->
  process_asin BeautifulSoup web driver url w =
  (match page_after url (web (length (visited w)) url) with
   | Some page => Returned (result_for BeautifulSoup url page)
   | None => Raised WebDriverException
   end,
   world_after_navigation driver url (web (length (visited w)) url) w).
Proof.
  intros Hs Hopen. unfold process_asin, bind.
  rewrite (get_final_url_and_html_open web driver url w s Hs Hopen).
  now destruct (page_after url (web (length (visited w)) url)).
Qed.

(** C1. The reconciler sets [is_redirect] exactly when the two identifiers
    differ; without a redirect [orderable] is the classifier's answer and
    [is_unavailable] its negation; with a redirect [orderable] is false and
    [is_unavailable] true whatever the classifier said; so the two flags are
    always complementary, also in every result [process_asin] returns.  And
    [process_asin] is that reconciler at work: on an open session it returns
    the final URL, the price of the fetched markup and the flags the
    reconciler makes of the identifier of the input URL, the identifier of
    the final URL and the classifier's answer on the fetched markup (the
    original URL and the empty markup when the navigation timed out); when
    the driver fails otherwise it raises. *)
Theorem reconciler_flags :
  forall (original final : option string) (raw : bool),
    let f := reconcile original final raw in
    (is_redirect f = true <-> original <> final) /\
    orderable f = (raw && negb (is_redirect f)) /\
    is_unavailable f = (negb raw || is_redirect f) /\
    is_unavailable f = negb (orderable f) /\
    (forall BeautifulSoup web driver input_url w,
      match process_asin BeautifulSoup web driver input_url w with
      | (Returned c, _) =>
          (c_is_redirect c = true <->
           extract_asin_from_url input_url <> extract_asin_from_url (c_final_url c)) /\
          (c_is_redirect c && c_orderable c = false) /\
          c_is_unavailable c = negb (c_orderable c)
      | (Raised _, _) => True
      end) /\
    (forall BeautifulSoup web driver input_url w s,
        nth_error (sessions w) driver = Some s ->
        is_open s = true ->
        let reconciled final_url html :=
          let g := reconcile (extract_asin_from_url input_url)
                     (extract_asin_from_url final_url)
                     (is_orderable_from_html BeautifulSoup html) in
          mkResult final_url (extract_price_from_html BeautifulSoup html)
            (is_redirect g) (is_unavailable g) (orderable g) in
        exists w',
          process_asin BeautifulSoup web driver input_url w =
          (match web (length (visited w)) input_url with
           | Loaded final_url html => Returned (reconciled final_url html)
           | TimedOut => Returned (reconciled input_url "")
           | Crashed => Raised WebDriverException
           end, w')).
Proof.
  intros original final raw f.
  assert (R : forall a b r, is_redirect (reconcile a b r) = true <-> a <> b).
  { intros a b r. rewrite reconcile_redirect, negb_true_iff.
    rewrite <- not_true_iff_false, option_string_eqb_spec. tauto. }
  split; [apply R|].
  split; [subst f; unfold reconcile; now destruct (option_string_eqb original final), raw|].
  split; [subst f; unfold reconcile; now destruct (option_string_eqb original final), raw|].
  split; [apply reconcile_complementary|].
  split.
  - intros BS web driver input_url w.
    destruct (process_asin BS web driver input_url w) as [[c|e] w'] eqn:E; [|exact I].
    apply process_asin_reconciled in E. destruct E as (html & _ & Hr & Hu & Ho).
    rewrite Hr, Hu, Ho. split; [apply R|]. split; [|apply reconcile_complementary].
    unfold reconcile. now destruct (option_string_eqb _ _), (is_orderable_from_html BS html).
  - intros BS web driver input_url w s Hs Hopen reconciled.
    exists (world_after_navigation driver input_url
              (web (length (visited w)) input_url) w).
    rewrite (process_asin_open BS web driver input_url w s Hs Hopen).
    now destruct (web (length (visited w)) input_url).
Qed.

Lemma reconciler_flags_witness :
  exists w',
    process_asin shop_parser example_web 0 "https://x/dp/B000123456"
      (snd (webdriver_Chrome example_world))
    = (Returned (mkResult "https://x/dp/B000123456" "19.99" false false true), w').
Proof.
  destruct (reconciler_flags None None false) as (_ & _ & _ & _ & _ & H).
  apply (H shop_parser example_web 0 "https://x/dp/B000123456"
           (snd (webdriver_Chrome example_world)) (mkSession true "data:," "")).
  - reflexivity.
  - reflexivity.
Defined.

Lemma world_after_navigation_open driver url nav w s :
  nth_error (sessions w) driver = Some s ->
  is_open s = true ->
  exists s', nth_error (sessions (world_after_navigation driver url nav w)) driver = Some s'
             /\ is_open s' = true.
Proof.
  intros Hs Hopen. unfold world_after_navigation. destruct nav; simpl; eauto.
  rewrite (nth_error_list_set_same _ _ _ _ Hs). eauto.
Qed.

(** The fetch loop on an open session. *)
Lemma check_all_open BeautifulSoup web driver urls :
  forall w s,
    nth_error (sessions w) driver = Some s ->
    is_open s = true ->
    check_all BeautifulSoup web driver urls w =
    (match fetched BeautifulSoup web (length (visited w)) urls with
     | Some results => Returned results
     | None => Raised WebDriverException
     end,
     world_after_fetch web driver urls w).
Proof.
  induction urls as [|url rest IH]; intros w s Hs Hopen; [reflexivity|].
  simpl check_all. unfold bind.
  rewrite (process_asin_open BeautifulSoup web driver url w s Hs Hopen).
  destruct (world_after_navigation_open driver url (web (length (visited w)) url) w s Hs Hopen)
    as (s' & Hs' & Hopen').
  simpl fetched. simpl world_after_fetch.
  assert (Hv : length (visited (world_after_navigation driver url
                                  (web (length (visited w)) url) w))
               = S (length (visited w))).
  { unfold world_after_navigation. destruct (web _ _); simpl;
      rewrite length_app; simpl; lia. }
  destruct (web (length (visited w)) url) as [final_url html | |] eqn:Enav; simpl page_after.
  - rewrite (IH _ s' Hs' Hopen'), Hv.
    now destruct (fetched BeautifulSoup web (S (length (visited w))) rest).
  - rewrite (IH _ s' Hs' Hopen'), Hv.
    now destruct (fetched BeautifulSoup web (S (length (visited w))) rest).
  - reflexivity.
Qed.

(** What the fetch loop leaves alone, and what it does to the sessions. *)
Lemma world_after_fetch_frame web driver urls :
  forall w s,
    nth_error (sessions w) driver = Some s ->
    is_open s = true ->
    let w' := world_after_fetch web driver urls w in
    asins w' = asins w /\ next_id w' = next_id w /\
    writes w' = writes w /\ clock w' = clock w /\
    length (sessions w') = length (sessions w) /\
    session_open w' driver = Some true /\
    (forall d, d <> driver -> nth_error (sessions w') d = nth_error (sessions w) d).
Proof.
  induction urls as [|url rest IH]; intros w s Hs Hopen.
  - simpl. unfold session_open. rewrite Hs. simpl. rewrite Hopen. repeat split.
  - simpl world_after_fetch.
    set (nav := web (length (visited w)) url).
    destruct (world_after_navigation_open driver url nav w s Hs Hopen)
      as (s' & Hs' & Hopen').
    assert (F : let w1 := world_after_navigation driver url nav w in
                asins w1 = asins w /\ next_id w1 = next_id w /\
                writes w1 = writes w /\ clock w1 = clock w /\
                length (sessions w1) = length (sessions w) /\
                (forall d, d <> driver -> nth_error (sessions w1) d = nth_error (sessions w) d)).
    { unfold world_after_navigation. destruct nav; simpl; repeat split; auto.
      - apply list_set_length.
      - intros d Hd. now apply nth_error_list_set_other. }
    destruct F as (Fa & Fn & Fw & Fc & Fl & Fo).
    assert (Hfinal : let w1 := world_after_navigation driver url nav w in
                     asins w1 = asins w /\ next_id w1 = next_id w /\
                     writes w1 = writes w /\ clock w1 = clock w /\
                     length (sessions w1) = length (sessions w) /\
                     session_open w1 driver = Some true /\
                     (forall d, d <> driver ->
                                nth_error (sessions w1) d = nth_error (sessions w) d)).
    { repeat split; auto. unfold session_open. rewrite Hs'. simpl. now rewrite Hopen'. }
    specialize (IH _ s' Hs' Hopen'). simpl in IH.
    destruct IH as (Ia & In' & Iw & Ic & Il & Io & Iother).
    destruct nav eqn:Enav; try exact Hfinal;
      (repeat split; try congruence; intros d Hd; rewrite Iother by exact Hd; now apply Fo).
Qed.

Lemma world_after_navigation_visited driver url nav w :
  visited (world_after_navigation driver url nav w) = visited w ++ [url].
Proof. unfold world_after_navigation. now destruct nav. Qed.

(** When no navigation fails, every URL was asked for once, in order, and
    every row has its result. *)
Lemma fetched_some BeautifulSoup web driver urls :
  forall w results,
    fetched BeautifulSoup web (length (visited w)) urls = Some results ->
    visited (world_after_fetch web driver urls w) = visited w ++ urls /\
    length results = length urls.
Proof.
  induction urls as [|url rest IH]; intros w results.
  - simpl. intros [= <-]. now rewrite app_nil_r.
  - simpl fetched. simpl world_after_fetch.
    destruct (web (length (visited w)) url) as [final_url html | |] eqn:Enav;
      simpl page_after; try discriminate.
    + destruct (fetched BeautifulSoup web (S (length (visited w))) rest) as [rs|] eqn:E;
        [|discriminate].
      intros [= <-].
      destruct (IH (world_after_navigation driver url (Loaded final_url html) w) rs)
        as [Hv Hl].
      { rewrite world_after_navigation_visited, length_app. simpl.
        now rewrite Nat.add_1_r. }
      rewrite Hv, world_after_navigation_visited, <- app_assoc. simpl. auto.
    + destruct (fetched BeautifulSoup web (S (length (visited w))) rest) as [rs|] eqn:E;
        [|discriminate].
      intros [= <-].
      destruct (IH (world_after_navigation driver url TimedOut w) rs) as [Hv Hl].
      { rewrite world_after_navigation_visited, length_app. simpl.
        now rewrite Nat.add_1_r. }
      rewrite Hv, world_after_navigation_visited, <- app_assoc. simpl. auto.
Qed.

(** The result of the row at position [length before]. *)
Lemma fetched_nth BeautifulSoup web :
  forall before n url after results,
    fetched BeautifulSoup web n (before ++ url :: after) = Some results ->
    exists page,
      page_after url (web (n + length before) url) = Some page /\
      nth_error results (length before) = Some (result_for BeautifulSoup url page).
Proof.
  induction before as [|u before IH]; intros n url after results; simpl.
  - rewrite Nat.add_0_r. destruct (page_after url (web n url)) as [page|]; [|discriminate].
    destruct (fetched BeautifulSoup web (S n) after); [|discriminate].
    intros [= <-]. now exists page.
  - destruct (page_after u (web n u)); [|discriminate].
    destruct (fetched BeautifulSoup web (S n) (before ++ url :: after)) as [rs|] eqn:E;
      [|discriminate].
    intros [= <-]. apply IH in E. destruct E as (page & Hp & Hn).
    exists page. rewrite <- Nat.add_succ_comm. auto.
Qed.

(** A navigation that fails leaves the loop without results. *)
Lemma fetched_crash BeautifulSoup web :
  forall before n url after,
    web (n + length before) url = Crashed ->
    fetched BeautifulSoup web n (before ++ url :: after) = None.
Proof.
  induction before as [|u before IH]; intros n url after H; simpl.
  - rewrite Nat.add_0_r in H. now rewrite H.
  - destruct (page_after u (web n u)); [|reflexivity].
    rewrite IH; [reflexivity|]. simpl in H. now rewrite Nat.add_succ_comm.
Qed.

(** ** Persistence *)


Lemma update_status_columns_some now db_fails r i w :
  r_id r = Some i ->
  update_status_columns now db_fails r w =
  let w1 := set_writes (S (writes w)) (set_clock (S (clock w)) w) in
  if db_fails (writes w) then (Raised DatabaseError, w1)
  else (Returned tt, update_where_id i r (now (clock w)) w1).
Proof.
  unfold update_status_columns. intros ->.
  unfold bind, datetime_now, execute. simpl. now destruct (db_fails (writes w)).
Qed.

(** The persistence loop writes the rows in order, one statement each, and
    stops at the first statement that fails. *)
Lemma persist_spec now db_fails kept :
  forall w,
    Forall (fun r => id_notnull r = true) kept ->
    exists o w',
      for_each kept (update_status_columns now db_fails) w = (o, w') /\
      sessions w' = sessions w /\ visited w' = visited w /\ next_id w' = next_id w /\
      ((o = Returned tt /\
        asins w' = written now kept (clock w) (asins w) /\
        writes w' = writes w + length kept /\
        (forall j, j < length kept -> db_fails (writes w + j) = false)) \/
       (exists done r rest,
           kept = done ++ r :: rest /\ o = Raised DatabaseError /\
           asins w' = written now done (clock w) (asins w) /\
           writes w' = writes w + length done + 1 /\
           db_fails (writes w + length done) = true)).
Proof.
  induction kept as [|r kept IH]; intros w Hall.
  - exists (Returned tt), w. simpl. repeat split; auto.
    left. repeat split; auto. intros j Hj. simpl in Hj. lia.
  - inversion Hall as [|? ? Hr Hkept]; subst.
    unfold id_notnull in Hr. destruct (r_id r) as [i|] eqn:Ei; [|discriminate].
    simpl for_each. unfold bind.
    rewrite (update_status_columns_some now db_fails r i w Ei). simpl.
    destruct (db_fails (writes w)) eqn:Ef.
    + eexists _, _. split; [reflexivity|]. simpl. repeat split; auto.
      right. exists [], r, kept. simpl. rewrite Nat.add_0_r. repeat split; auto. lia.
    + destruct (IH (update_where_id i r (now (clock w))
                      (set_writes (S (writes w)) (set_clock (S (clock w)) w))) Hkept)
        as (o & w' & Hrun & Hs & Hv & Hn & Hcases).
      exists o, w'. split; [exact Hrun|]. simpl in *.
      repeat split; auto. destruct Hcases as [(Ho & Ha & Hw & Hok) | Hfail].
      * left. rewrite Ei. repeat split; auto; [lia|].
        intros [|j] Hj; [now rewrite Nat.add_0_r|].
        rewrite <- Nat.add_succ_comm. apply Hok. lia.
      * right. destruct Hfail as (done & r' & rest & Hk & Ho & Ha & Hw & Hf).
        exists (r :: done), r', rest. simpl. rewrite Ei.
        repeat split; auto; [now rewrite Hk | lia |].
        now rewrite <- Nat.add_succ_comm.
Qed.

Lemma kept_rows_notnull df results db_df :
  Forall (fun r => id_notnull r = true) (kept_rows df results db_df).
Proof.
  unfold kept_rows. apply Forall_forall. intros r Hr.
  now apply filter_In in Hr.
Qed.

(** ** The check runner *)

Section Runner.

Variable BeautifulSoup : string -> soup.
Variable web : nat -> string -> navigation.
Variable now : nat -> string.
Variable db_fails : nat -> bool.

(** The world once the session is started and the fetch loop is over. *)
Lemma fetch_phase (df : DataFrame) (w : world) :
  let driver := length (sessions w) in
  let urls := map r_URL (rows df) in
  let w1 := world_after_fetch web driver urls (snd (webdriver_Chrome w)) in
  bind webdriver_Chrome
    (fun d => check_all BeautifulSoup web d urls) w =
  (match fetched BeautifulSoup web (length (visited w)) urls with
   | Some results => Returned results
   | None => Raised WebDriverException
   end, w1) /\
  asins w1 = asins w /\ next_id w1 = next_id w /\
  writes w1 = writes w /\ clock w1 = clock w /\
  length (sessions w1) = S (length (sessions w)) /\
  session_open w1 driver = Some true /\
  (forall d, d <> driver -> nth_error (sessions w1) d = nth_error (sessions w) d).
Proof.
  intros driver urls w1.
  set (s0 := mkSession true "data:," "").
  assert (Hs : nth_error (sessions (snd (webdriver_Chrome w))) driver = Some s0)
    by apply nth_error_new_session.
  split.
  - unfold bind.
    change (webdriver_Chrome w) with (@Returned nat driver, snd (webdriver_Chrome w)).
    cbv beta iota.
    now rewrite (check_all_open BeautifulSoup web driver urls _ s0 Hs eq_refl).
  - destruct (world_after_fetch_frame web driver urls _ s0 Hs eq_refl)
      as (Ha & Hn & Hw & Hc & Hl & Ho & Hother).
    fold w1 in Ha, Hn, Hw, Hc, Hl, Ho, Hother. simpl in *.
    repeat split; auto.
    + rewrite Hl, length_app. simpl. lia.
    + intros d Hd. rewrite Hother by exact Hd.
      destruct (Nat.lt_ge_cases d driver) as [Hlt | Hge].
      * now rewrite nth_error_app1.
      * assert (nth_error (sessions w) d = None) by (apply nth_error_None; exact Hge).
        assert (nth_error (sessions w ++ [s0]) d = None)
          by (apply nth_error_None; rewrite length_app; simpl; unfold driver in *; lia).
        rewrite H. exact H0.
Qed.

(** A run whose fetch loop meets a failing navigation raises, writes
    nothing and leaves its session open. *)
Lemma run_fetch_failed (df : DataFrame) (w : world) :
  fetched BeautifulSoup web (length (visited w)) (map r_URL (rows df)) = None ->
  exists w',
    run_status_check BeautifulSoup web now db_fails df w = (Raised WebDriverException, w') /\
    asins w' = asins w /\ writes w' = writes w /\ clock w' = clock w /\
    length (sessions w') = S (length (sessions w)) /\
    session_open w' (length (sessions w)) = Some true.
Proof.
  intro Hf. destruct (fetch_phase df w) as (Hrun & Ha & Hn & Hw & Hc & Hl & Ho & _).
  rewrite Hf in Hrun.
  exists (world_after_fetch web (length (sessions w)) (map r_URL (rows df))
            (snd (webdriver_Chrome w))).
  split; [|repeat split; assumption].
  unfold run_status_check. unfold bind in *.
  destruct (webdriver_Chrome w) as [[d|e] w0] eqn:E0; [|discriminate E0].
  injection E0 as <- <-. simpl in Hrun |- *.
  destruct (check_all BeautifulSoup web (length (sessions w)) (map r_URL (rows df)) _)
    as [[rs|e] w1]; [discriminate Hrun|].
  injection Hrun as -> <-. reflexivity.
Qed.

(** A run whose fetch loop ends closes its session and then persists the
    kept rows in order, stopping at the first write that fails. *)
Lemma run_fetched (df : DataFrame) (w : world) (results : list check_result) :
  fetched BeautifulSoup web (length (visited w)) (map r_URL (rows df)) = Some results ->
  let kept := kept_rows df results (asins w) in
  exists o w',
    run_status_check BeautifulSoup web now db_fails df w = (o, w') /\
    length (sessions w') = S (length (sessions w)) /\
    session_open w' (length (sessions w)) = Some false /\
    visited w' = visited w ++ map r_URL (rows df) /\
    next_id w' = next_id w /\
    ((o = Returned (mkDataFrame true kept) /\
      asins w' = written now kept (clock w) (asins w) /\
      writes w' = writes w + length kept /\
      (forall j, j < length kept -> db_fails (writes w + j) = false)) \/
     (exists done r rest,
         kept = done ++ r :: rest /\ o = Raised DatabaseError /\
         asins w' = written now done (clock w) (asins w) /\
         writes w' = writes w + length done + 1 /\
         db_fails (writes w + length done) = true)).
Proof.
  intros Hf kept.
  destruct (fetch_phase df w) as (Hrun & Ha & Hn & Hw & Hc & Hl & Ho & _).
  rewrite Hf in Hrun.
  set (driver := length (sessions w)) in *.
  set (w1 := world_after_fetch web driver (map r_URL (rows df)) (snd (webdriver_Chrome w))) in *.
  destruct (fetched_some BeautifulSoup web driver (map r_URL (rows df))
              (snd (webdriver_Chrome w)) results Hf) as [Hv _].
  fold w1 in Hv. simpl in Hv.
  unfold session_open in Ho.
  destruct (nth_error (sessions w1) driver) as [s1|] eqn:Es1; [|discriminate Ho].
  set (w2 := set_sessions
               (list_set (sessions w1) driver
                  (mkSession false (current_url s1) (page_source s1))) w1).
  destruct (persist_spec now db_fails kept w2 (kept_rows_notnull df results (asins w)))
    as (o & w' & Hp & Hs' & Hv' & Hn' & Hcases).
  assert (Hrun2 :
    run_status_check BeautifulSoup web now db_fails df w =
    match o with
    | Returned _ => (Returned (mkDataFrame true kept), w')
    | Raised e => (Raised e, w')
    end).
  { unfold run_status_check. unfold bind in *.
    destruct (webdriver_Chrome w) as [[d|e] w0] eqn:E0; [|discriminate E0].
    injection E0 as <- <-. simpl in Hrun |- *. fold driver.
    fold driver in Hrun. rewrite Hrun.
    unfold driver_quit. rewrite Es1. unfold get_all_asins, ensure_table,
      ensure_status_columns, get_world, bind, ret. fold w2.
    change (asins w2) with (asins w1). rewrite Ha.
    change (filter id_notnull
              (if has_id_column df then assign_results (rows df) results
               else merge_left_on_URL (assign_results (rows df) results) (asins w)))
      with kept.
    rewrite Hp.
    now destruct o. }
  assert (Hopen' : session_open w' driver = Some false).
  { unfold session_open. rewrite Hs'. unfold w2. simpl.
    now rewrite (nth_error_list_set_same _ _ _ _ Es1). }
  assert (Hlen' : length (sessions w') = S (length (sessions w))).
  { rewrite Hs'. unfold w2. simpl. now rewrite list_set_length. }
  change (asins w2) with (asins w1) in Hcases. change (clock w2) with (clock w1) in Hcases.
  change (writes w2) with (writes w1) in Hcases.
  rewrite Ha, Hc, Hw in Hcases.
  change (visited w2) with (visited w1) in Hv'. change (next_id w2) with (next_id w1) in Hn'.
  destruct Hcases as [(Ho' & Hcase) | (done & r & rest & Hk & Ho' & Hcase)].
  - exists (Returned (mkDataFrame true kept)), w'. rewrite Ho' in Hrun2.
    split; [exact Hrun2|]. split; [exact Hlen'|]. split; [exact Hopen'|].
    split; [congruence|]. split; [congruence|]. left. split; [reflexivity | exact Hcase].
  - exists (Raised DatabaseError), w'. rewrite Ho' in Hrun2.
    split; [exact Hrun2|]. split; [exact Hlen'|]. split; [exact Hopen'|].
    split; [congruence|]. split; [congruence|].
    right. exists done, r, rest. split; [exact Hk|]. split; [reflexivity | exact Hcase].
Qed.

End Runner.

(** ** The table after the writes *)

Lemma written_app now rs1 rs2 c table :
  exists c', written now (rs1 ++ rs2) c table = written now rs2 c' (written now rs1 c table).
Proof.
  revert c table. induction rs1 as [|r rs1 IH]; intros c table; simpl.
  - now exists c.
  - destruct (r_id r); apply IH.
Qed.

(** Writing changes no identity and no catalog attribute, and keeps the
    records in their places. *)
Lemma written_keeps now rs :
  forall c table j p,
    nth_error table j = Some p ->
    exists p',
      nth_error (written now rs c table) j = Some p' /\
      p_id p' = p_id p /\ p_ASIN p' = p_ASIN p /\ p_URL p' = p_URL p /\
      p_Collection_Name p' = p_Collection_Name p /\ p_Size p' = p_Size p /\
      p_Color p' = p_Color p /\ p_Customer p' = p_Customer p.
Proof.
  induction rs as [|r rs IH]; intros c table j p Hj; simpl.
  - exists p. repeat split; auto.
  - destruct (r_id r) as [i|].
    + set (f := fun q => if Z.eqb (p_id q) i then set_status r (now c) q else q).
      assert (Hf : nth_error (map f table) j = Some (f p))
        by (rewrite nth_error_map, Hj; reflexivity).
      destruct (IH (S c) _ j (f p) Hf) as (p' & Hp' & Hid & Hrest).
      exists p'. split; [exact Hp'|].
      assert (Hfp : p_id (f p) = p_id p /\ p_ASIN (f p) = p_ASIN p /\
                    p_URL (f p) = p_URL p /\
                    p_Collection_Name (f p) = p_Collection_Name p /\
                    p_Size (f p) = p_Size p /\ p_Color (f p) = p_Color p /\
                    p_Customer (f p) = p_Customer p).
      { unfold f. destruct (Z.eqb (p_id p) i); simpl; repeat split. }
      destruct Hfp as (F1 & F2 & F3 & F4 & F5 & F6 & F7).
      destruct Hrest as (R2 & R3 & R4 & R5 & R6 & R7).
      repeat split; congruence.
    + now apply IH.
Qed.

Lemma written_length now rs c table :
  length (written now rs c table) = length table.
Proof.
  revert c table. induction rs as [|r rs IH]; intros c table; simpl; [reflexivity|].
  destruct (r_id r); rewrite IH; [apply length_map | reflexivity].
Qed.

(** A record that no written row names is left as it was. *)
Lemma written_untouched now rs :
  forall c table j p,
    nth_error table j = Some p ->
    ~ In (Some (p_id p)) (map r_id rs) ->
    nth_error (written now rs c table) j = Some p.
Proof.
  induction rs as [|r rs IH]; intros c table j p Hj Hno; simpl; [exact Hj|].
  simpl in Hno. destruct (r_id r) as [i|] eqn:Ei.
  - apply IH; [|tauto]. rewrite nth_error_map, Hj. simpl.
    destruct (Z.eqb (p_id p) i) eqn:E; [|reflexivity].
    apply Z.eqb_eq in E. subst i. tauto.
  - apply IH; [exact Hj | tauto].
Qed.

(** A record carries the results of the last written row that names it. *)
Lemma written_last now before r after :
  forall c table j p,
    nth_error table j = Some p ->
    r_id r = Some (p_id p) ->
    ~ In (Some (p_id p)) (map r_id after) ->
    exists p' t,
      nth_error (written now (before ++ r :: after) c table) j = Some p' /\
      p_id p' = p_id p /\ has_status_of r p' /\ p_Last_Checked p' = Some (now t).
Proof.
  intros c table j p Hj Hr Hafter.
  destruct (written_app now before (r :: after) c table) as (c' & ->).
  destruct (written_keeps now before c table j p Hj) as (p1 & Hp1 & Hid1 & _).
  simpl. rewrite Hr.
  set (f := fun q => if Z.eqb (p_id q) (p_id p) then set_status r (now c') q else q).
  assert (Hf : nth_error (map f (written now before c table)) j = Some (f p1))
    by (rewrite nth_error_map, Hp1; reflexivity).
  assert (Hfp : f p1 = set_status r (now c') p1).
  { unfold f. rewrite Hid1. now rewrite Z.eqb_refl. }
  exists (f p1), c'. split.
  - apply written_untouched; [exact Hf|]. rewrite Hfp. simpl. now rewrite Hid1.
  - rewrite Hfp. simpl. unfold has_status_of. simpl. repeat split; auto.
Qed.

(** ** Catalog *)

Lemma url_in_iff (url : string) (table : list product) :
  url_in url table = true <-> In url (map p_URL table).
Proof.
  unfold url_in. rewrite existsb_exists. split.
  - intros (u & Hu & E). apply String.eqb_eq in E. now subst.
  - intro H. exists url. split; [exact H | apply String.eqb_refl].
Qed.

(** C8. For every catalog and every insertion whose URL is already in it,
    [add_asin_row] returns [False], raises nothing and leaves the whole
    world as it was: no write statement is sent, the number of records and
    every record are unchanged. *)
Theorem duplicate_url_rejected :
  forall (db_fails : nat -> bool) (d : row_dict) (w : world),
    In (d_URL d) (map p_URL (asins w)) ->
    add_asin_row db_fails d w = (Returned false, w) /\
    forall o w',
      add_asin_row db_fails d w = (o, w') ->
      o = Returned false /\ asins w' = asins w /\
      length (asins w') = length (asins w) /\ writes w' = writes w.
Proof.
  intros db_fails d w Hin.
  assert (E : add_asin_row db_fails d w = (Returned false, w)).
  { apply url_in_iff in Hin.
    cbv beta iota delta [add_asin_row ensure_table ensure_status_columns
                         get_all_asins get_world bind ret].
    now rewrite Hin. }
  split; [exact E|]. intros o w' H. rewrite E in H. injection H as <- <-. auto.
Qed.

Lemma duplicate_url_rejected_witness :
  add_asin_row never_fails
    (mkRowDict "https://x/dp/B000111111" "Sheets" "M" "Red" "Acme") example_world
  = (Returned false, example_world).
Proof.
  apply (duplicate_url_rejected never_fails
           (mkRowDict "https://x/dp/B000111111" "Sheets" "M" "Red" "Acme")
           example_world).
  simpl. auto.
Defined.

(** A URL that is not in the catalog is inserted when the statement goes
    through: the rejection above is not the only answer. *)
Lemma add_asin_row_new_url :
  fst (add_asin_row never_fails
         (mkRowDict "https://x/dp/B000333333" "Sheets" "M" "Red" "Acme") example_world)
  = Returned true /\
  length (asins (snd (add_asin_row never_fails
         (mkRowDict "https://x/dp/B000333333" "Sheets" "M" "Red" "Acme") example_world)))
  = 4.
Proof. split; reflexivity. Qed.

(** ** Persistence of the rows without identity *)


(** ** The order of fetching and persisting *)

(** C3, as the code has it.  The runner fetches and classifies every row
    first and persists afterwards, one write statement per kept row, in
    order.  When a navigation fails on some row the run raises and no row
    has been written.  When every navigation ends, either every kept row is
    written, or a write fails and exactly the kept rows before it are
    written.  A record named by no written row is untouched, and a record
    named by a written row carries the results of the last such row. *)
Theorem results_persisted_after_fetch_loop :
  forall (BeautifulSoup : string -> soup) (web : nat -> string -> navigation)
         (now : nat -> string) (db_fails : nat -> bool) (df : DataFrame) (w : world),
    (forall before r after,
        rows df = before ++ r :: after ->
        web (length (visited w) + length before) (r_URL r) = Crashed ->
        exists w',
          run_status_check BeautifulSoup web now db_fails df w
          = (Raised WebDriverException, w') /\
          asins w' = asins w /\ writes w' = writes w) /\
    (forall results,
        fetched BeautifulSoup web (length (visited w)) (map r_URL (rows df))
        = Some results ->
        let kept := kept_rows df results (asins w) in
        exists o w',
          run_status_check BeautifulSoup web now db_fails df w = (o, w') /\
          ((o = Returned (mkDataFrame true kept) /\
            asins w' = written now kept (clock w) (asins w) /\
            writes w' = writes w + length kept) \/
           (exists done r rest,
               kept = done ++ r :: rest /\ o = Raised DatabaseError /\
               db_fails (writes w + length done) = true /\
               asins w' = written now done (clock w) (asins w) /\
               writes w' = writes w + length done + 1))) /\
    (forall done c table j p,
        nth_error table j = Some p ->
        ~ In (Some (p_id p)) (map r_id done) ->
        nth_error (written now done c table) j = Some p) /\
    (forall before r after c table j p,
        nth_error table j = Some p ->
        r_id r = Some (p_id p) ->
        ~ In (Some (p_id p)) (map r_id after) ->
        exists p',
          nth_error (written now (before ++ r :: after) c table) j = Some p' /\
          p_id p' = p_id p /\ has_status_of r p').
Proof.
  intros BS web now db_fails df w. split; [|split; [|split]].
  - intros before r after Hrows Hcrash.
    assert (Hf : fetched BS web (length (visited w)) (map r_URL (rows df)) = None).
    { rewrite Hrows, map_app. simpl. apply fetched_crash. now rewrite length_map. }
    destruct (run_fetch_failed BS web now db_fails df w Hf)
      as (w' & Hrun & Ha & Hw & _).
    exists w'. auto.
  - intros results Hf kept.
    destruct (run_fetched BS web now db_fails df w results Hf)
      as (o & w' & Hrun & _ & _ & _ & _ & Hcases).
    exists o, w'. split; [exact Hrun|]. fold kept in Hcases.
    destruct Hcases as [(Ho & Ha & Hw & _) | (done & r & rest & Hk & Ho & Ha & Hw & Hfail)].
    + left. auto.
    + right. exists done, r, rest. auto.
  - intros done c table j p. apply written_untouched.
  - intros before r after c table j p Hj Hr Hafter.
    destruct (written_last now before r after c table j p Hj Hr Hafter)
      as (p' & t & H1 & H2 & H3 & _).
    exists p'. auto.
Qed.

Lemma results_persisted_after_fetch_loop_witness :
  (exists w',
      run_status_check shop_parser example_web example_clock never_fails
        crashing_batch example_world
      = (Raised WebDriverException, w') /\
      asins w' = asins example_world /\ writes w' = writes example_world) /\
  nth_error
    (written example_clock
       [ mkRow (Some 1%Z) "https://x/dp/B000123456" (Some "https://x/dp/B000123456")
           (Some "19.99") (Some "No") (Some "No") (Some "Yes") ]
       0 example_catalog) 1
  = Some (listing 2 "B000111111" "https://x/dp/B000111111").
Proof.
  split.
  - apply (proj1 (results_persisted_after_fetch_loop shop_parser example_web
                    example_clock never_fails crashing_batch example_world)
             [ unchecked (Some 1%Z) "https://x/dp/B000123456" ]
             (unchecked (Some 3%Z) "https://x/dp/B000222222") []).
    + reflexivity.
    + reflexivity.
  - apply (proj1 (proj2 (proj2 (results_persisted_after_fetch_loop shop_parser
                    example_web example_clock never_fails crashing_batch example_world)))).
    + reflexivity.
    + simpl. intros [H | []]. discriminate H.
Defined.

(** C3 as the specification words it fails: the second row of the batch
    makes the driver fail, and the first row, which was fetched before, is
    not updated in the store. *)
Lemma earlier_row_not_persisted_on_failure :
  let run := run_status_check shop_parser example_web example_clock never_fails
               crashing_batch example_world in
  fst run = Raised WebDriverException /\
  visited (snd run) = ["https://x/dp/B000123456"; "https://x/dp/B000222222"] /\
  asins (snd run) = asins example_world /\
  option_map p_Final_URL (nth_error (asins (snd run)) 0) = Some None /\
  writes (snd run) = 0.
Proof. repeat split. Qed.

(** The writes are one transaction each: when the second write fails, the
    first row is updated and the second is not. *)
Lemma second_write_fails :
  let run := run_status_check shop_parser example_web example_clock (fails_at 1)
               timing_out_batch example_world in
  fst run = Raised DatabaseError /\
  option_map p_Price (nth_error (asins (snd run)) 0) = Some (Some "19.99") /\
  option_map p_Price (nth_error (asins (snd run)) 1) = Some None.
Proof. repeat split. Qed.

(** ** The browser session *)

(** C7, as the code has it.  A run starts exactly one session.  When the
    fetch loop ends, the session is closed before anything is persisted, so
    it is closed when the run returns and also when a write fails.  When a
    navigation fails, the run raises with the session still open. *)
Theorem session_closed_after_fetch_loop :
  forall (BeautifulSoup : string -> soup) (web : nat -> string -> navigation)
         (now : nat -> string) (db_fails : nat -> bool) (df : DataFrame) (w : world),
    exists o w',
      run_status_check BeautifulSoup web now db_fails df w = (o, w') /\
      length (sessions w') = S (length (sessions w)) /\
      match fetched BeautifulSoup web (length (visited w)) (map r_URL (rows df)) with
      | Some _ => session_open w' (length (sessions w)) = Some false
      | None =>
          o = Raised WebDriverException /\
          session_open w' (length (sessions w)) = Some true
      end.
Proof.
  intros BS web now db_fails df w.
  destruct (fetched BS web (length (visited w)) (map r_URL (rows df)))
    as [results|] eqn:Hf.
  - destruct (run_fetched BS web now db_fails df w results Hf)
      as (o & w' & Hrun & Hl & Ho & _).
    exists o, w'. auto.
  - destruct (run_fetch_failed BS web now db_fails df w Hf)
      as (w' & Hrun & _ & _ & _ & Hl & Ho).
    exists (Raised WebDriverException), w'. auto.
Qed.

(** C7 as the specification words it fails: a run that ends by an exception
    of the driver leaves its session open. *)
Lemma session_left_open_on_failure :
  let run := run_status_check shop_parser example_web example_clock never_fails
               crashing_batch example_world in
  fst run = Raised WebDriverException /\
  length (sessions (snd run)) = 1 /\
  session_open (snd run) 0 = Some true.
Proof. repeat split. Qed.

(** ** Navigation timeouts *)










(** The timed-out row, end to end. *)
Lemma timeout_row_end_to_end :
  let run := run_status_check shop_parser example_web example_clock never_fails
               timing_out_batch example_world in
  option_map p_Final_URL (nth_error (asins (snd run)) 1)
  = Some (Some "https://x/dp/B000111111") /\
  option_map p_Price (nth_error (asins (snd run)) 1) = Some (Some "") /\
  option_map p_Orderable (nth_error (asins (snd run)) 1) = Some (Some "No") /\
  option_map p_Is_Unavailable (nth_error (asins (snd run)) 1) = Some (Some "Yes") /\
  visited (snd run) = ["https://x/dp/B000123456"; "https://x/dp/B000111111"].
Proof. repeat split. Qed.

(** ** Which rows are persisted *)





(** ** The scenarios of the specification, end to end *)

(** The page redirects to another listing. *)
Example scenario_redirect :
  fst (process_asin shop_parser example_web 0 "https://x/dp/B000777777"
         (snd (webdriver_Chrome example_world)))
  = Returned (mkResult "https://x/dp/B000999999" "" true true false).
Proof. reflexivity. Qed.

(** No redirect, a price in the buy box and an add-to-cart button. *)
Example scenario_orderable :
  fst (process_asin shop_parser example_web 0 "https://x/dp/B000123456"
         (snd (webdriver_Chrome example_world)))
  = Returned (mkResult "https://x/dp/B000123456" "19.99" false false true).
Proof. reflexivity. Qed.

(** The navigation times out. *)
Example scenario_timeout :
  fst (process_asin shop_parser example_web 0 "https://x/dp/B000111111"
         (snd (webdriver_Chrome example_world)))
  = Returned (mkResult "https://x/dp/B000111111" "" false true false).
Proof. reflexivity. Qed.

(** The identifiers of the URLs the catalog is given. *)
Example extract_asin_gp_product :
  extract_asin "https://x/gp/product/B000123456/ref=abc" = Some "B000123456".
Proof. reflexivity. Qed.

Example extract_asin_from_url_gp_product :
  extract_asin_from_url "https://x/gp/product/B000123456" = None.
Proof. reflexivity. Qed.

(** * Further properties *)

(** ** Inserting into the catalog *)

(** The three ways [add_asin_row] ends. *)
Lemma add_asin_row_cases db_fails d w :
  add_asin_row db_fails d w =
  if url_in (d_URL d) (asins w) then (Returned false, w)
  else if db_fails (writes w) then (Returned false, set_writes (S (writes w)) w)
  else (Returned true,
        insert_product (extract_asin (d_URL d)) d (set_writes (S (writes w)) w)).
Proof.
  cbv beta iota delta [add_asin_row ensure_table ensure_status_columns
                       get_all_asins get_world bind ret].
  destruct (url_in (d_URL d) (asins w)); [reflexivity|].
  unfold try_except, bind, execute, any_exception, ret.
  now destruct (db_fails (writes w)).
Qed.

Lemma url_in_false_iff (url : string) (table : list product) :
  url_in url table = false <-> ~ In url (map p_URL table).
Proof.
  rewrite <- url_in_iff. destruct (url_in url table).
  - split; [discriminate | intro H; exfalso; now apply H].
  - split; [intros _ H; discriminate H | reflexivity].
Qed.

(** X1. On a row that holds text under its five keys: whenever
    [add_asin_row] returns, it returns [True] exactly when the URL was not
    in the catalog and the insert went through, and then the table is the
    old one followed by one record: the next identity, the identifier
    extracted from the URL, the five attributes given and null result
    columns; when it returns [False] the table and the next identity are as
    before; sessions, navigations and clock are not touched.  An insert
    that fails is caught: the function then returns [False], having sent
    that one statement, and the table is as before. *)
Theorem add_asin_row_reports_insertion :
  forall (db_fails : nat -> bool) (d : row_dict) (w : world),
    (forall (b : bool) (w' : world),
        add_asin_row db_fails d w = (Returned b, w') ->
        b = negb (url_in (d_URL d) (asins w)) && negb (db_fails (writes w)) /\
        asins w' = (if b then asins w ++ [inserted_record d w] else asins w) /\
        next_id w' = (if b then (next_id w + 1)%Z else next_id w) /\
        sessions w' = sessions w /\ visited w' = visited w /\ clock w' = clock w) /\
    (url_in (d_URL d) (asins w) = false ->
     db_fails (writes w) = true ->
     exists w',
       add_asin_row db_fails d w = (Returned false, w') /\
       asins w' = asins w /\ writes w' = S (writes w)).
Proof.
  intros db_fails d w. rewrite add_asin_row_cases. split.
  - intros b w'.
    destruct (url_in (d_URL d) (asins w)); [|destruct (db_fails (writes w))];
      intros [= <- <-]; simpl; repeat split.
  - intros -> ->. eexists. split; [reflexivity|]. simpl. auto.
Qed.

Lemma add_asin_row_reports_insertion_witness :
  let d := mkRowDict "https://x/dp/B000333333" "Sheets" "M" "Red" "Acme" in
  asins (snd (add_asin_row never_fails d example_world))
  = asins example_world ++ [inserted_record d example_world] /\
  exists w',
    add_asin_row (fails_at 0) d example_world = (Returned false, w') /\
    asins w' = asins example_world /\ writes w' = S (writes example_world).
Proof.
  intro d. split.
  - apply (proj1 (add_asin_row_reports_insertion never_fails d example_world) true
             (snd (add_asin_row never_fails d example_world))).
    reflexivity.
  - apply (proj2 (add_asin_row_reports_insertion (fails_at 0) d example_world)).
    + reflexivity.
    + reflexivity.
Defined.

(** X2. Inserting keeps the catalog well formed: when the URLs of the
    catalog are all different they still are after [add_asin_row], whatever
    it returned, and identities given by the counter stay all different and
    below the counter. *)
Theorem add_asin_row_keeps_urls_unique :
  forall (db_fails : nat -> bool) (d : row_dict) (w : world),
    NoDup (map p_URL (asins w)) ->
    ids_fresh w ->
    let w' := snd (add_asin_row db_fails d w) in
    NoDup (map p_URL (asins w')) /\ ids_fresh w'.
Proof.
  intros db_fails d w Hurls [Hids Hbelow]. rewrite add_asin_row_cases.
  destruct (url_in (d_URL d) (asins w)) eqn:Eurl; [now repeat split|].
  destruct (db_fails (writes w)); [now repeat split|].
  apply url_in_false_iff in Eurl. simpl. unfold ids_fresh. simpl.
  rewrite !map_app. simpl. split; [|split].
  - apply NoDup_app; [exact Hurls | repeat constructor; auto |].
    intros u Hu [<- | []]. now apply Eurl.
  - apply NoDup_app; [exact Hids | repeat constructor; auto |].
    intros i Hi [<- | []]. apply in_map_iff in Hi. destruct Hi as (p & Hp & Hin).
    apply Hbelow in Hin. lia.
  - intros p Hp. apply in_app_or in Hp. destruct Hp as [Hp | [<- | []]].
    + apply Hbelow in Hp. lia.
    + simpl. lia.
Qed.

Lemma add_asin_row_keeps_urls_unique_witness :
  NoDup (map p_URL (asins (snd (add_asin_row never_fails
     (mkRowDict "https://x/dp/B000333333" "Sheets" "M" "Red" "Acme") example_world)))).
Proof.
  apply (add_asin_row_keeps_urls_unique never_fails
           (mkRowDict "https://x/dp/B000333333" "Sheets" "M" "Red" "Acme")
           example_world).
  - simpl. repeat constructor; simpl; intuition discriminate.
  - split.
    + simpl. repeat constructor; simpl; intuition discriminate.
    + simpl. intros p [<- | [<- | [<- | []]]]; simpl; lia.
Defined.

(** X3. Insert, then insert again, on rows that hold text under their five
    keys and a database that answers the statements of lines 173-175: once
    [add_asin_row] has added a URL, a second insertion of the same URL, with
    any attributes, returns [False] at line 177; it sends no insert, so it
    changes nothing whether or not an insert would have gone through. *)
Theorem inserted_url_is_then_rejected :
  forall (db_fails db_fails' : nat -> bool) (d d' : row_dict) (w w' : world),
    add_asin_row db_fails d w = (Returned true, w') ->
    d_URL d' = d_URL d ->
    add_asin_row db_fails' d' w' = (Returned false, w').
Proof.
  intros db_fails db_fails' d d' w w' Hadd Hurl.
  rewrite add_asin_row_cases in Hadd.
  destruct (url_in (d_URL d) (asins w)); [discriminate Hadd|].
  destruct (db_fails (writes w)); [discriminate Hadd|].
  injection Hadd as <-. rewrite add_asin_row_cases.
  assert (E : url_in (d_URL d')
                (asins (insert_product (extract_asin (d_URL d)) d
                          (set_writes (S (writes w)) w))) = true).
  { apply url_in_iff. simpl. rewrite map_app. apply in_or_app. right.
    simpl. now left. }
  now rewrite E.
Qed.

Lemma inserted_url_is_then_rejected_witness :
  let d := mkRowDict "https://x/dp/B000333333" "Sheets" "M" "Red" "Acme" in
  let w' := snd (add_asin_row never_fails d example_world) in
  add_asin_row (fails_at 0) (mkRowDict "https://x/dp/B000333333" "" "" "" "") w'
  = (Returned false, w').
Proof.
  intros d w'.
  apply (inserted_url_is_then_rejected never_fails (fails_at 0) d
           (mkRowDict "https://x/dp/B000333333" "" "" "" "") example_world w').
  - reflexivity.
  - reflexivity.
Defined.

(** ** Deleting and editing records *)

Lemma delete_asin_cases db_fails i w :
  delete_asin db_fails i w =
  if db_fails (writes w) then (Raised DatabaseError, set_writes (S (writes w)) w)
  else (Returned tt, delete_where_id i (set_writes (S (writes w)) w)).
Proof. unfold delete_asin, execute. now destruct (db_fails (writes w)). Qed.

Lemma filter_all_true {A : Type} (f : A -> bool) (l : list A) :
  (forall x, In x l -> f x = true) -> filter f l = l.
Proof.
  induction l as [|x l IH]; intro H; simpl; [reflexivity|].
  rewrite (H x (or_introl eq_refl)). f_equal. apply IH. intros y Hy. apply H. now right.
Qed.

(** X4. [delete_asin] removes exactly the records of the given identity and
    keeps the other records, in their order; when no record has the
    identity the table is unchanged although the statement is sent;
    deleting a second time changes nothing more; and when the statement
    fails the exception propagates and the table is unchanged. *)
Theorem delete_asin_removes_identity :
  forall (db_fails : nat -> bool) (i : Z) (w : world),
    let o := fst (delete_asin db_fails i w) in
    let w' := snd (delete_asin db_fails i w) in
    writes w' = S (writes w) /\ next_id w' = next_id w /\
    (db_fails (writes w) = true -> o = Raised DatabaseError /\ asins w' = asins w) /\
    (db_fails (writes w) = false ->
     o = Returned tt /\
     asins w' = filter (fun p => negb (Z.eqb (p_id p) i)) (asins w) /\
     (forall p, In p (asins w') <-> In p (asins w) /\ p_id p <> i) /\
     (~ In i (map p_id (asins w)) -> asins w' = asins w) /\
     forall db_fails', asins (snd (delete_asin db_fails' i w')) = asins w').
Proof.
  intros db_fails i w. rewrite delete_asin_cases.
  destruct (db_fails (writes w)) eqn:E; simpl.
  - repeat split; auto; discriminate.
  - split; [reflexivity|]. split; [reflexivity|]. split; [discriminate|]. intros _.
    split; [reflexivity|]. split; [reflexivity|]. split; [|split].
    + intro p. rewrite filter_In, negb_true_iff, Z.eqb_neq. tauto.
    + intro Hno. apply filter_all_true. intros p Hp.
      apply negb_true_iff, Z.eqb_neq. intros <-. apply Hno. now apply in_map.
    + intro db_fails'. rewrite delete_asin_cases.
      destruct (db_fails' _); simpl; [reflexivity|].
      apply filter_all_true. intros p Hp. now apply filter_In in Hp.
Qed.

Lemma delete_asin_removes_identity_witness :
  map p_id (asins (snd (delete_asin never_fails 2 example_world))) = [1%Z; 3%Z] /\
  fst (delete_asin (fails_at 0) 2 example_world) = Raised DatabaseError.
Proof.
  split.
  - destruct (delete_asin_removes_identity never_fails 2 example_world)
      as (_ & _ & _ & H).
    destruct (H eq_refl) as (_ & -> & _). reflexivity.
  - apply (proj1 (proj2 (proj2 (delete_asin_removes_identity (fails_at 0) 2
                                   example_world)))).
    reflexivity.
Defined.

Lemma update_asin_cases db_fails i asin url collection size color customer w :
  update_asin db_fails i asin url collection size color customer w =
  if db_fails (writes w) then (Raised DatabaseError, set_writes (S (writes w)) w)
  else (Returned tt,
        set_asins
          (map (fun p => if Z.eqb (p_id p) i
                         then set_catalog asin url collection size color customer p
                         else p) (asins w))
          (set_writes (S (writes w)) w)).
Proof. unfold update_asin, execute. now destruct (db_fails (writes w)). Qed.

(** X5. [update_asin] edits in place: whatever its outcome, the number of
    records, their identities, their order and every result column
    (including the time of the last check) are as before, and the records of
    other identities are untouched; when the statement goes through the
    record of the given identity carries the six values given, so a change
    of URL keeps the results of the checks of the old URL. *)
Theorem update_asin_keeps_results :
  forall (db_fails : nat -> bool) (i : Z) (asin : option string)
         (url collection size color customer : string) (w : world),
    let o := fst (update_asin db_fails i asin url collection size color customer w) in
    let w' := snd (update_asin db_fails i asin url collection size color customer w) in
    length (asins w') = length (asins w) /\
    map p_id (asins w') = map p_id (asins w) /\
    map result_columns (asins w') = map result_columns (asins w) /\
    (forall j p, nth_error (asins w) j = Some p -> p_id p <> i ->
                 nth_error (asins w') j = Some p) /\
    (forall j p, nth_error (asins w) j = Some p -> p_id p = i ->
                 o = Returned tt ->
                 nth_error (asins w') j
                 = Some (set_catalog asin url collection size color customer p)) /\
    (o <> Returned tt -> asins w' = asins w).
Proof.
  intros db_fails i asin url collection size color customer w.
  rewrite update_asin_cases. destruct (db_fails (writes w)); simpl.
  - repeat split; auto. intros j p _ _ H. discriminate H.
  - set (f := fun p => if Z.eqb (p_id p) i
                       then set_catalog asin url collection size color customer p
                       else p).
    split; [apply length_map|]. split; [|split; [|split; [|split]]].
    + rewrite map_map. apply map_ext. intro p. unfold f.
      now destruct (Z.eqb (p_id p) i).
    + rewrite map_map. apply map_ext. intro p. unfold f.
      now destruct (Z.eqb (p_id p) i).
    + intros j p Hj Hp. rewrite nth_error_map, Hj. simpl. unfold f.
      apply Z.eqb_neq in Hp. now rewrite Hp.
    + intros j p Hj Hp _. rewrite nth_error_map, Hj. simpl. unfold f.
      apply Z.eqb_eq in Hp. now rewrite Hp.
    + intro H. now contradiction H.
Qed.

Lemma update_asin_keeps_results_witness :
  nth_error
    (asins (snd (update_asin never_fails 2 (Some "B000444444") "https://x/dp/B000444444"
                   "Rugs" "S" "Grey" "Zenith" example_world))) 0
  = Some (listing 1 "B000123456" "https://x/dp/B000123456").
Proof.
  apply (proj1 (proj2 (proj2 (proj2
          (update_asin_keeps_results never_fails 2 (Some "B000444444")
             "https://x/dp/B000444444" "Rugs" "S" "Grey" "Zenith" example_world))))).
  - reflexivity.
  - discriminate.
Defined.

(** X6. [update_asin] does not look at the other records: giving a record
    the URL of a record of another identity goes through, and the catalog
    then holds that URL twice.  URLs are unique at insertion only. *)
Theorem update_asin_can_duplicate_url :
  forall (db_fails : nat -> bool) (w : world) (p q : product)
         (asin : option string) (collection size color customer : string),
    In p (asins w) -> In q (asins w) -> p_id p <> p_id q ->
    db_fails (writes w) = false ->
    let run := update_asin db_fails (p_id p) asin (p_URL q) collection size color
                 customer w in
    fst run = Returned tt /\ ~ NoDup (map p_URL (asins (snd run))).
Proof.
  intros db_fails w p q asin collection size color customer Hp Hq Hne Hok.
  rewrite update_asin_cases, Hok. simpl. split; [reflexivity|].
  set (f := fun r => if Z.eqb (p_id r) (p_id p)
                     then set_catalog asin (p_URL q) collection size color customer r
                     else r).
  apply In_nth_error in Hp. destruct Hp as [jp Hjp].
  apply In_nth_error in Hq. destruct Hq as [jq Hjq].
  intro Hnd. rewrite NoDup_nth_error in Hnd.
  assert (Ep : nth_error (map p_URL (map f (asins w))) jp = Some (p_URL q)).
  { rewrite !nth_error_map, Hjp. simpl. unfold f. now rewrite Z.eqb_refl. }
  assert (Eq : nth_error (map p_URL (map f (asins w))) jq = Some (p_URL q)).
  { rewrite !nth_error_map, Hjq. simpl. unfold f.
    assert (E : Z.eqb (p_id q) (p_id p) = false) by (apply Z.eqb_neq; congruence).
    now rewrite E. }
  assert (Hlt : jp < length (map p_URL (map f (asins w)))).
  { apply nth_error_Some. rewrite Ep. discriminate. }
  specialize (Hnd jp jq Hlt). rewrite Ep, Eq in Hnd. specialize (Hnd eq_refl).
  subst jq. rewrite Hjp in Hjq. injection Hjq as ->. now apply Hne.
Qed.

Lemma update_asin_can_duplicate_url_witness :
  map p_URL
    (asins (snd (update_asin never_fails 1 (Some "B000123456") "https://x/dp/B000111111"
                   "Towels" "L" "Blue" "Acme" example_world)))
  = ["https://x/dp/B000111111"; "https://x/dp/B000111111"; "https://x/dp/B000222222"]
  /\ ~ NoDup (map p_URL
       (asins (snd (update_asin never_fails 1 (Some "B000123456")
                      "https://x/dp/B000111111" "Towels" "L" "Blue" "Acme"
                      example_world)))).
Proof.
  split; [reflexivity|].
  apply (update_asin_can_duplicate_url never_fails example_world
           (listing 1 "B000123456" "https://x/dp/B000123456")
           (listing 2 "B000111111" "https://x/dp/B000111111")
           (Some "B000123456") "Towels" "L" "Blue" "Acme").
  - simpl. auto.
  - simpl. auto.
  - discriminate.
  - reflexivity.
Defined.

(** ** Bulk upload *)




Lemma existsb_ext_in (known known' : list string) (u : string) :
  (forall x, In x known <-> In x known') ->
  existsb (String.eqb u) known = existsb (String.eqb u) known'.
Proof.
  intro H.
  destruct (existsb (String.eqb u) known) eqn:E1, (existsb (String.eqb u) known') eqn:E2;
    try reflexivity.
  - apply existsb_exists in E1. destruct E1 as (x & Hx & Heq).
    apply H in Hx. assert (E : existsb (String.eqb u) known' = true)
      by (apply existsb_exists; eauto). congruence.
  - apply existsb_exists in E2. destruct E2 as (x & Hx & Heq).
    apply H in Hx. assert (E : existsb (String.eqb u) known = true)
      by (apply existsb_exists; eauto). congruence.
Qed.

(** [new_urls] looks at which URLs are known, not at how they are listed. *)
Lemma new_urls_ext (upload : list string) :
  forall known known',
    (forall x, In x known <-> In x known') ->
    new_urls known upload = new_urls known' upload.
Proof.
  induction upload as [|u rest IH]; intros known known' H; simpl; [reflexivity|].
  rewrite (existsb_ext_in known known' u H).
  destruct (existsb (String.eqb u) known'); [now apply IH|].
  f_equal. apply IH. intro x. simpl. rewrite H. tauto.
Qed.

Lemma bulk_loop_exact db_fails df_all upload :
  (forall n, db_fails n = false) ->
  forall added skipped w,
    (forall u, In u (map p_URL df_all) -> In u (map p_URL (asins w))) ->
    exists w',
      bulk_loop db_fails df_all upload added skipped w
      = (Returned
           (added + length (new_urls (map p_URL (asins w)) (map d_URL upload)),
            skipped + length (skipped_rows df_all upload)), w') /\
      map p_URL (asins w')
      = map p_URL (asins w) ++ new_urls (map p_URL (asins w)) (map d_URL upload).
Proof.
  intro Hok. induction upload as [|d rest IH]; intros added skipped w Hsub.
  - exists w. simpl. now rewrite app_nil_r, !Nat.add_0_r.
  - simpl bulk_loop. unfold skipped_rows. simpl filter. simpl map. simpl new_urls.
    fold (skipped_rows df_all rest).
    change (existsb (String.eqb (d_URL d)) (map p_URL (asins w)))
      with (url_in (d_URL d) (asins w)).
    destruct (url_in (d_URL d) df_all) eqn:Eknown.
    + assert (Ecur : url_in (d_URL d) (asins w) = true).
      { apply url_in_iff. apply Hsub. now apply url_in_iff. }
      rewrite Ecur. destruct (IH added (S skipped) w Hsub) as (w' & Hrun & Hu).
      exists w'. split; [|exact Hu]. rewrite Hrun. simpl. now rewrite <- plus_n_Sm.
    + unfold bind. rewrite add_asin_row_cases, Hok.
      destruct (url_in (d_URL d) (asins w)) eqn:Ecur.
      * destruct (IH added skipped w Hsub) as (w' & Hrun & Hu).
        exists w'. split; [exact Hrun | exact Hu].
      * set (w1 := insert_product (extract_asin (d_URL d)) d
                     (set_writes (S (writes w)) w)).
        assert (Hurls : map p_URL (asins w1) = map p_URL (asins w) ++ [d_URL d]).
        { unfold w1. simpl. now rewrite map_app. }
        assert (Hsub1 : forall u, In u (map p_URL df_all) -> In u (map p_URL (asins w1))).
        { intros u Hin. rewrite Hurls. apply in_or_app. left. now apply Hsub. }
        destruct (IH (S added) skipped w1 Hsub1) as (w' & Hrun & Hu).
        assert (Hext : new_urls (map p_URL (asins w1)) (map d_URL rest)
                       = new_urls (d_URL d :: map p_URL (asins w)) (map d_URL rest)).
        { apply new_urls_ext. intro x. rewrite Hurls, in_app_iff. simpl. tauto. }
        exists w'. rewrite Hext in Hrun, Hu. split.
        -- rewrite Hrun. simpl. now rewrite <- plus_n_Sm.
        -- rewrite Hu, Hurls, <- app_assoc. reflexivity.
Qed.

(** X8. On an upload that has the five catalog columns with text in every
    cell, and when no statement fails, [add_asins_bulk] adds each URL that
    is new to the catalog once, at its first occurrence in the upload, in
    that order, and counts these; it counts as skipped the rows whose URL
    was in the catalog before.  A URL that is new and occurs again later in
    the upload is, from its second occurrence on, neither added nor counted
    as skipped. *)
Theorem add_asins_bulk_adds_new_urls_once :
  forall (db_fails : nat -> bool) (df_upload : list row_dict) (w : world),
    (forall n, db_fails n = false) ->
    let known := map p_URL (asins w) in
    let fresh := new_urls known (map d_URL df_upload) in
    exists w',
      add_asins_bulk db_fails df_upload w
      = (Returned (length fresh, length (skipped_rows (asins w) df_upload)), w') /\
      map p_URL (asins w') = known ++ fresh /\
      NoDup fresh /\ (forall u, In u fresh -> ~ In u known).
Proof.
  intros db_fails df_upload w Hok known fresh.
  destruct (bulk_loop_exact db_fails (asins w) df_upload Hok 0 0 w (fun u H => H))
    as (w' & Hrun & Hu).
  exists w'. split; [|split; [exact Hu|]].
  - cbv beta iota delta [add_asins_bulk ensure_table ensure_status_columns
                         get_all_asins get_world bind ret].
    exact Hrun.
  - unfold fresh. clear. generalize (map d_URL df_upload) as l. generalize known as k.
    intros k l. revert k. induction l as [|u l IH]; intro k; simpl.
    + split; [constructor | intros u []].
    + destruct (existsb (String.eqb u) k) eqn:E; [apply IH|].
      destruct (IH (u :: k)) as [Hnd Hnew]. split.
      * constructor; [|exact Hnd]. intro Hin. apply (Hnew u Hin). now left.
      * intros x [<- | Hx].
        -- intro Hin. assert (E' : existsb (String.eqb u) k = true)
             by (apply existsb_exists; exists u; split; [exact Hin | apply String.eqb_refl]).
           congruence.
        -- intro Hin. apply (Hnew x Hx). now right.
Qed.

Lemma add_asins_bulk_adds_new_urls_once_witness :
  exists w',
    add_asins_bulk never_fails
      [ mkRowDict "https://x/dp/B000111111" "" "" "" "";
        mkRowDict "https://x/dp/B000333333" "" "" "" "";
        mkRowDict "https://x/dp/B000333333" "" "" "" "" ] example_world
    = (Returned (1, 1), w') /\
    map p_URL (asins w')
    = [ "https://x/dp/B000123456"; "https://x/dp/B000111111";
        "https://x/dp/B000222222"; "https://x/dp/B000333333" ].
Proof.
  destruct (add_asins_bulk_adds_new_urls_once never_fails
      [ mkRowDict "https://x/dp/B000111111" "" "" "" "";
        mkRowDict "https://x/dp/B000333333" "" "" "" "";
        mkRowDict "https://x/dp/B000333333" "" "" "" "" ] example_world
      (fun _ => eq_refl)) as (w' & Hrun & Hu & _).
  exists w'. split; [exact Hrun | exact Hu].
Defined.

(** ** The shape of the identifiers *)

Lemma asin_char_isalnum (c : ascii) :
  Re.asin_char c = true -> PyStr.isalnum_char c = true.
Proof.
  unfold Re.asin_char, PyStr.isalnum_char. intro H. apply orb_true_iff in H.
  destruct H as [H | H]; rewrite H; now rewrite ?orb_true_r.
Qed.

Lemma forall_chars_impl (p q : ascii -> bool) (s : string) :
  (forall c, p c = true -> q c = true) ->
  PyStr.forall_chars p s = true -> PyStr.forall_chars q s = true.
Proof.
  intro Hpq. induction s as [|c s IH]; simpl; [reflexivity|].
  intro H. apply andb_true_iff in H. destruct H as [Hc Hs].
  now rewrite (Hpq c Hc), IH.
Qed.

Lemma search_dp_some (url g : string) :
  Re.search Re.dp_at url = Some g -> asin_id g.
Proof.
  intro H. apply search_some in H. destruct H as (n & _ & Hm & _).
  unfold Re.dp_at in Hm. now apply literal_then_group_spec in Hm.
Qed.

(** X9. What the extractors return.  [extract_asin] returns a string,
    never [None]: the empty string, or ten alphanumeric characters.
    [extract_asin_from_url] returns [None] or ten characters that are
    upper-case letters or digits; and whenever it finds an identifier,
    [extract_asin] finds one of that kind too (not always the same one). *)
Theorem extracted_identifier_shape :
  forall url : string,
    (exists a, extract_asin url = Some a /\
               (a = "" \/
                (String.length a = 10 /\
                 PyStr.forall_chars PyStr.isalnum_char a = true))%string) /\
    (forall a, extract_asin_from_url url = Some a -> asin_id a) /\
    (forall a, extract_asin_from_url url = Some a ->
               exists b, extract_asin url = Some b /\ asin_id b).
Proof.
  intro url.
  assert (Hre : forall m, Re.search Re.dp_or_gp_at url = Some m ->
                          exists g, group_of m = Some g /\ asin_id g).
  { intros m Hm. apply search_some in Hm. destruct Hm as (n & _ & Hm & _).
    apply dp_or_gp_at_some in Hm. destruct Hm as (g & Hg & [H | H]);
      apply literal_then_group_spec in H; destruct H; eauto. }
  split; [|split].
  - unfold extract_asin. destruct (Re.search Re.dp_or_gp_at url) as [m|] eqn:E.
    + destruct (Hre m eq_refl) as (g & Hg & Hl & Hc). exists g.
      split; [exact Hg|]. right. split; [exact Hl|].
      apply (forall_chars_impl Re.asin_char); [apply asin_char_isalnum | exact Hc].
    + destruct (find ten_alnum _) as [part|] eqn:Efind.
      * exists part. split; [reflexivity|]. right.
        apply find_some in Efind. destruct Efind as [_ Ht].
        unfold ten_alnum in Ht. apply andb_true_iff in Ht. destruct Ht as [Hl Ha].
        apply Nat.eqb_eq in Hl. unfold PyStr.isalnum in Ha.
        apply andb_true_iff in Ha. tauto.
      * exists ""%string. auto.
  - intros a H. unfold extract_asin_from_url in H.
    destruct (Re.search Re.dp_at url) as [g|] eqn:E; [|discriminate].
    injection H as <-. now apply search_dp_some in E.
  - intros a H. unfold extract_asin_from_url in H.
    destruct (Re.search Re.dp_at url) as [g|] eqn:E; [|discriminate].
    apply search_some in E. destruct E as (n & _ & Hm & _).
    destruct (Re.search Re.dp_or_gp_at url) as [m|] eqn:E2.
    + destruct (Hre m eq_refl) as (b & Hb & Hid). exists b.
      unfold extract_asin. rewrite E2. auto.
    + exfalso. pose proof (search_none _ _ E2 n) as Hnone.
      unfold Re.dp_or_gp_at in Hnone. unfold Re.dp_at in Hm. now rewrite Hm in Hnone.
Qed.

Lemma extracted_identifier_shape_witness :
  asin_id "B000999999" /\
  exists b, extract_asin "https://x/gp/product/B000123456/dp/B000999999" = Some b /\
            asin_id b.
Proof.
  pose proof (extracted_identifier_shape "https://x/gp/product/B000123456/dp/B000999999")
    as (_ & Hshape & Hboth).
  split.
  - apply Hshape. reflexivity.
  - apply (Hboth "B000999999"%string). reflexivity.
Defined.

(** The two extractors can disagree on one URL. *)
Example extractors_disagree :
  extract_asin "https://x/gp/product/B000123456/dp/B000999999" = Some "B000123456" /\
  extract_asin_from_url "https://x/gp/product/B000123456/dp/B000999999"
  = Some "B000999999".
Proof. split; reflexivity. Qed.

(** ** What a status check leaves in the store *)

Lemma set_status_catalog (r : row) (t : string) (p : product) :
  catalog_columns (set_status r t p) = catalog_columns p.
Proof. reflexivity. Qed.

Lemma written_catalog now rs :
  forall c table,
    map catalog_columns (written now rs c table) = map catalog_columns table.
Proof.
  induction rs as [|r rs IH]; intros c table; simpl; [reflexivity|].
  destruct (r_id r) as [i|]; [|apply IH].
  rewrite IH, map_map. apply map_ext. intro p.
  now destruct (Z.eqb (p_id p) i).
Qed.

(** X10. A status check never edits the catalog: whatever the web, the
    database and the frame given, and however the run ends, the records are
    as many as before, in the same order, each with its identity, ASIN, URL,
    collection, size, color and customer unchanged. *)
Theorem status_check_keeps_catalog :
  forall (BeautifulSoup : string -> soup) (web : nat -> string -> navigation)
         (now : nat -> string) (db_fails : nat -> bool) (df : DataFrame) (w : world),
    let w' := snd (run_status_check BeautifulSoup web now db_fails df w) in
    map catalog_columns (asins w') = map catalog_columns (asins w) /\
    length (asins w') = length (asins w).
Proof.
  intros BS web now db_fails df w.
  assert (H : map catalog_columns
                (asins (snd (run_status_check BS web now db_fails df w)))
              = map catalog_columns (asins w)).
  { destruct (fetched BS web (length (visited w)) (map r_URL (rows df)))
      as [results|] eqn:Hf.
    - destruct (run_fetched BS web now db_fails df w results Hf)
        as (o & w' & Hrun & _ & _ & _ & _ & Hcases).
      rewrite Hrun. simpl.
      destruct Hcases as [(_ & -> & _) | (done & r & rest & _ & _ & -> & _)];
        apply written_catalog.
    - destruct (run_fetch_failed BS web now db_fails df w Hf) as (w' & Hrun & Ha & _).
      rewrite Hrun. simpl. now rewrite Ha. }
  simpl. split; [exact H|].
  apply (f_equal (@length _)) in H. now rewrite !length_map in H.
Qed.

Lemma result_for_flags BeautifulSoup url page :
  let c := result_for BeautifulSoup url page in
  c_is_unavailable c = negb (c_orderable c) /\
  (c_is_redirect c = true -> c_orderable c = false).
Proof.
  unfold result_for. simpl. split; [apply reconcile_complementary|].
  unfold reconcile. destruct (option_string_eqb _ _); simpl; [discriminate | reflexivity].
Qed.

Lemma fetched_flags BeautifulSoup web urls :
  forall n results,
    fetched BeautifulSoup web n urls = Some results ->
    Forall (fun c => c_is_unavailable c = negb (c_orderable c) /\
                     (c_is_redirect c = true -> c_orderable c = false)) results.
Proof.
  induction urls as [|url rest IH]; intros n results; simpl.
  - intros [= <-]. constructor.
  - destruct (page_after url (web n url)) as [pg|]; [|discriminate].
    destruct (fetched BeautifulSoup web (S n) rest) as [rs|] eqn:E; [|discriminate].
    intros [= <-]. constructor; [apply result_for_flags | now apply (IH (S n))].
Qed.

Lemma with_result_in_words (r : row) (c : check_result) :
  c_is_unavailable c = negb (c_orderable c) ->
  (c_is_redirect c = true -> c_orderable c = false) ->
  flags_in_words (with_result r c).
Proof.
  intros Hu Hr. exists (c_is_redirect c), (c_orderable c). simpl.
  rewrite Hu. auto.
Qed.

Lemma kept_rows_in_words df results db_df :
  Forall (fun c => c_is_unavailable c = negb (c_orderable c) /\
                   (c_is_redirect c = true -> c_orderable c = false)) results ->
  Forall (fun r => r_id r <> None /\ flags_in_words r /\
                   r_Final_URL r <> None /\ r_Price r <> None)
    (kept_rows df results db_df).
Proof.
  intro Hres. rewrite Forall_forall in Hres.
  assert (Hassigned : forall r, In r (assign_results (rows df) results) ->
                                flags_in_words r /\ r_Final_URL r <> None /\
                                r_Price r <> None).
  { intros r Hr. unfold assign_results in Hr. apply in_map_iff in Hr.
    destruct Hr as ([r0 c] & <- & Hin). apply in_combine_r in Hin.
    destruct (Hres c Hin) as [Hu Hrd]. simpl.
    split; [now apply with_result_in_words|]. split; discriminate. }
  apply Forall_forall. intros r Hr. unfold kept_rows in Hr.
  apply filter_In in Hr. destruct Hr as [Hr Hid].
  split; [unfold id_notnull in Hid; now destruct (r_id r)|].
  destruct (has_id_column df); [now apply Hassigned|].
  unfold merge_left_on_URL in Hr. apply in_flat_map in Hr.
  destruct Hr as (r0 & Hr0 & Hr). apply Hassigned in Hr0.
  assert (Hset : forall i, flags_in_words (set_id i r0) /\
                           r_Final_URL (set_id i r0) <> None /\
                           r_Price (set_id i r0) <> None) by (intro i; exact Hr0).
  destruct (filter _ db_df) as [|m ms].
  - destruct Hr as [<- | []]. apply Hset.
  - apply in_map_iff in Hr. destruct Hr as (p & <- & _). apply Hset.
Qed.

(** X11. The frame a status check returns has the identity column; every
    row of it has an identity, a final URL and a price that are not null,
    and its three flags are the words Yes or No, the unavailable flag the
    opposite of the orderable one and a redirected row never orderable. *)
Theorem returned_frame_flags_in_words :
  forall (BeautifulSoup : string -> soup) (web : nat -> string -> navigation)
         (now : nat -> string) (db_fails : nat -> bool) (df df' : DataFrame)
         (w w' : world),
    run_status_check BeautifulSoup web now db_fails df w = (Returned df', w') ->
    has_id_column df' = true /\
    Forall (fun r => r_id r <> None /\ flags_in_words r /\
                     r_Final_URL r <> None /\ r_Price r <> None) (rows df').
Proof.
  intros BS web now db_fails df df' w w' Hrun.
  destruct (fetched BS web (length (visited w)) (map r_URL (rows df)))
    as [results|] eqn:Hf.
  - destruct (run_fetched BS web now db_fails df w results Hf)
      as (o & w1 & Hrun1 & _ & _ & _ & _ & Hcases).
    rewrite Hrun in Hrun1. injection Hrun1 as <- <-.
    destruct Hcases as [(Ho & _) | (done & r & rest & _ & Ho & _)]; [|discriminate Ho].
    injection Ho as ->. simpl. split; [reflexivity|].
    apply kept_rows_in_words. now apply fetched_flags in Hf.
  - destruct (run_fetch_failed BS web now db_fails df w Hf) as (w1 & Hrun1 & _).
    rewrite Hrun in Hrun1. discriminate Hrun1.
Qed.

Lemma returned_frame_flags_in_words_witness :
  Forall (fun r => r_id r <> None /\ flags_in_words r /\
                   r_Final_URL r <> None /\ r_Price r <> None)
    [ mkRow (Some 1%Z) "https://x/dp/B000123456" (Some "https://x/dp/B000123456")
        (Some "19.99") (Some "No") (Some "No") (Some "Yes");
      mkRow (Some 2%Z) "https://x/dp/B000111111" (Some "https://x/dp/B000111111")
        (Some "") (Some "No") (Some "Yes") (Some "No") ].
Proof.
  apply (returned_frame_flags_in_words shop_parser example_web example_clock
           never_fails timing_out_batch
           (mkDataFrame true
              [ mkRow (Some 1%Z) "https://x/dp/B000123456"
                  (Some "https://x/dp/B000123456") (Some "19.99")
                  (Some "No") (Some "No") (Some "Yes");
                mkRow (Some 2%Z) "https://x/dp/B000111111"
                  (Some "https://x/dp/B000111111") (Some "")
                  (Some "No") (Some "Yes") (Some "No") ])
           example_world
           (snd (run_status_check shop_parser example_web example_clock never_fails
                   timing_out_batch example_world))).
  reflexivity.
Defined.

Lemma written_flags_consistent now rs :
  Forall flags_in_words rs ->
  forall c table,
    Forall record_flags_consistent table ->
    Forall record_flags_consistent (written now rs c table).
Proof.
  induction 1 as [|r rs Hr _ IH]; intros c table Ht; simpl; [exact Ht|].
  destruct (r_id r) as [i|]; [|now apply IH].
  apply IH. apply Forall_forall. intros p Hp. apply in_map_iff in Hp.
  destruct Hp as (q & <- & Hq). rewrite Forall_forall in Ht.
  destruct (Z.eqb (p_id q) i); [|now apply Ht].
  destruct Hr as (redirect & ord & _ & Ho & Hu & _).
  right. exists ord. simpl. auto.
Qed.

(** X12. A status check keeps the flags of the store consistent: when
    before the run every record has its orderable and unavailable flags
    either both null or in words and opposite, the same holds after the
    run, however it ends, also when it stops at a failing write. *)
Theorem status_check_keeps_flags_consistent :
  forall (BeautifulSoup : string -> soup) (web : nat -> string -> navigation)
         (now : nat -> string) (db_fails : nat -> bool) (df : DataFrame) (w : world),
    Forall record_flags_consistent (asins w) ->
    Forall record_flags_consistent
      (asins (snd (run_status_check BeautifulSoup web now db_fails df w))).
Proof.
  intros BS web now db_fails df w Hw.
  destruct (fetched BS web (length (visited w)) (map r_URL (rows df)))
    as [results|] eqn:Hf.
  - pose proof (kept_rows_in_words df results (asins w) (fetched_flags _ _ _ _ _ Hf))
      as Hkept.
    assert (Hwords : Forall flags_in_words (kept_rows df results (asins w))).
    { apply Forall_forall. intros r Hr. rewrite Forall_forall in Hkept.
      now apply Hkept in Hr. }
    destruct (run_fetched BS web now db_fails df w results Hf)
      as (o & w' & Hrun & _ & _ & _ & _ & Hcases).
    rewrite Hrun. simpl.
    destruct Hcases as [(_ & -> & _) | (done & r & rest & Hk & _ & -> & _)].
    + now apply written_flags_consistent.
    + apply written_flags_consistent; [|exact Hw].
      rewrite Hk in Hwords. now apply Forall_app in Hwords.
  - destruct (run_fetch_failed BS web now db_fails df w Hf) as (w' & Hrun & Ha & _).
    rewrite Hrun. simpl. now rewrite Ha.
Qed.

Lemma status_check_keeps_flags_consistent_witness :
  Forall record_flags_consistent
    (asins (snd (run_status_check shop_parser example_web example_clock (fails_at 1)
                   timing_out_batch example_world))).
Proof.
  apply (status_check_keeps_flags_consistent shop_parser example_web example_clock
           (fails_at 1) timing_out_batch example_world).
  simpl. repeat constructor; left; split; reflexivity.
Defined.

(** ** A catalog URL without the [/dp/] pattern *)

(** X13. The checker reads identifiers with [extract_asin_from_url] only.
    When the URL of a row has no [/dp/] identifier (as a URL of the
    [/gp/product/] form, which the catalog accepts) and the page settles on
    a URL that has one, the row is reported as redirected, unavailable and
    not orderable, whatever the page shows; and when neither URL has one,
    the row is never reported as redirected. *)
Theorem url_without_dp_pattern_is_redirect :
  forall (BeautifulSoup : string -> soup) (web : nat -> string -> navigation)
         (driver : nat) (url : string) (w : world) (s : session)
         (final_url html : string),
    nth_error (sessions w) driver = Some s ->
    is_open s = true ->
    web (length (visited w)) url = Loaded final_url html ->
    extract_asin_from_url url = None ->
    exists c w',
      process_asin BeautifulSoup web driver url w = (Returned c, w') /\
      c_final_url c = final_url /\
      c_price c = extract_price_from_html BeautifulSoup html /\
      (extract_asin_from_url final_url <> None ->
       c_is_redirect c = true /\ c_is_unavailable c = true /\ c_orderable c = false) /\
      (extract_asin_from_url final_url = None ->
       c_is_redirect c = false /\
       c_orderable c = is_orderable_from_html BeautifulSoup html).
Proof.
  intros BS web driver url w s final_url html Hs Hopen Hnav Hnone.
  rewrite (process_asin_open BS web driver url w s Hs Hopen), Hnav. simpl.
  eexists _, _. split; [reflexivity|].
  unfold result_for, reconcile. simpl. rewrite Hnone.
  split; [reflexivity|]. split; [reflexivity|]. split.
  - intro H. destruct (extract_asin_from_url final_url); [|contradiction].
    simpl. auto.
  - intros ->. simpl. auto.
Qed.

Lemma url_without_dp_pattern_is_redirect_witness :
  extract_asin "https://x/gp/product/B000123456" = Some "B000123456" /\
  is_orderable_from_html shop_parser buybox_html = true /\
  exists c w',
    process_asin shop_parser settling_web 0 "https://x/gp/product/B000123456"
      (snd (webdriver_Chrome example_world)) = (Returned c, w') /\
    c_final_url c = "https://x/dp/B000123456" /\
    c_is_redirect c = true /\ c_is_unavailable c = true /\ c_orderable c = false.
Proof.
  split; [reflexivity|]. split; [reflexivity|].
  destruct (url_without_dp_pattern_is_redirect shop_parser settling_web 0
              "https://x/gp/product/B000123456" (snd (webdriver_Chrome example_world))
              (mkSession true "data:," "") "https://x/dp/B000123456" buybox_html
              eq_refl eq_refl eq_refl eq_refl) as (c & w' & Hrun & Hf & _ & Hred & _).
  exists c, w'. split; [exact Hrun|]. split; [exact Hf|].
  apply Hred. discriminate.
Defined.

(** ** The text of a price *)

Lemma lstrip_keeps (p q : ascii -> bool) (s : string) :
  PyStr.forall_chars q s = true -> PyStr.forall_chars q (PyStr.lstrip p s) = true.
Proof.
  induction s as [|c s IH]; simpl; [reflexivity|].
  intro H. destruct (p c); [|exact H].
  apply andb_true_iff in H. now apply IH.
Qed.

Lemma rstrip_keeps (p q : ascii -> bool) (s : string) :
  PyStr.forall_chars q s = true -> PyStr.forall_chars q (PyStr.rstrip p s) = true.
Proof.
  induction s as [|c s IH]; simpl; [reflexivity|].
  intro H. apply andb_true_iff in H. destruct H as [Hc Hs].
  destruct (p c && PyStr.is_empty (PyStr.rstrip p s)); [reflexivity|].
  simpl. now rewrite Hc, IH.
Qed.

Lemma rstrip_idempotent (p : ascii -> bool) (s : string) :
  PyStr.rstrip p (PyStr.rstrip p s) = PyStr.rstrip p s.
Proof.
  induction s as [|c s IH]; simpl; [reflexivity|].
  destruct (p c && PyStr.is_empty (PyStr.rstrip p s)) eqn:E; [reflexivity|].
  simpl. rewrite IH. now rewrite E.
Qed.

(** What [rstrip] leaves starts as the string did, unless nothing is
    left. *)
Lemma lstrip_rstrip (p : ascii -> bool) (s : string) :
  PyStr.lstrip p s = s -> PyStr.lstrip p (PyStr.rstrip p s) = PyStr.rstrip p s.
Proof.
  destruct s as [|c s]; [reflexivity|]. simpl.
  destruct (p c) eqn:Ec.
  - intro H. exfalso.
    assert (Hlen : String.length (PyStr.lstrip p s) <= String.length s).
    { clear. induction s as [|a s IH]; simpl; [lia|]. destruct (p a); simpl; lia. }
    rewrite H in Hlen. simpl in Hlen. lia.
  - intros _. simpl. now rewrite Ec.
Qed.

Lemma lstrip_idempotent (p : ascii -> bool) (s : string) :
  PyStr.lstrip p (PyStr.lstrip p s) = PyStr.lstrip p s.
Proof.
  induction s as [|c s IH]; simpl; [reflexivity|].
  destruct (p c) eqn:Ec; [exact IH|]. simpl. now rewrite Ec.
Qed.

Lemma strip_set_idempotent (p : ascii -> bool) (s : string) :
  PyStr.strip_set p (PyStr.strip_set p s) = PyStr.strip_set p s.
Proof.
  unfold PyStr.strip_set.
  rewrite (lstrip_rstrip p (PyStr.lstrip p s) (lstrip_idempotent p s)).
  apply rstrip_idempotent.
Qed.

Lemma clean_price_clean (t : string) : clean_text (clean_price t).
Proof.
  unfold clean_text, clean_price, PyStr.strip. split; [|split].
  - apply strip_set_idempotent.
  - unfold PyStr.strip_set. apply rstrip_keeps, lstrip_keeps, remove_char_gone.
  - unfold PyStr.strip_set. apply rstrip_keeps, lstrip_keeps, remove_char_keeps,
      remove_char_gone.
Qed.

Lemma price_by_ids_clean (doc : soup) (pids : list string) (price : string) :
  price_by_ids doc pids = Some price -> clean_text price.
Proof.
  induction pids as [|pid rest IH]; simpl; [discriminate|].
  destruct (find_by_id doc pid) as [el|]; [|exact IH].
  destruct (has_text (Some el)); [|exact IH].
  intros [= <-]. apply clean_price_clean.
Qed.

Lemma contains_unfold (sub s : string) :
  PyStr.contains sub s =
  match PyStr.after_prefix sub s with
  | Some _ => true
  | None => match s with
            | EmptyString => false
            | String _ s' => PyStr.contains sub s'
            end
  end.
Proof. now destruct s. Qed.

(** A string holds what was put in its middle. *)
Lemma contains_append (sub a rest : string) :
  PyStr.contains sub (a ++ sub ++ rest)%string = true.
Proof.
  induction a as [|c a IH]; rewrite contains_unfold.
  - simpl String.append.
    assert (E : PyStr.after_prefix sub (sub ++ rest)%string = Some rest)
      by now apply after_prefix_spec.
    now rewrite E.
  - destruct (PyStr.after_prefix sub _); [reflexivity|]. simpl String.append. exact IH.
Qed.

(** X14. Unless the whole-plus-fraction branch decides, the price returned
    is currency-stripped text: it has no dollar sign, no newline and no
    white space at either end (stripping it again changes nothing).  The
    whole-plus-fraction branch always yields a text with a point in it,
    never the empty string. *)
Theorem price_text_is_clean :
  forall (BeautifulSoup : string -> soup) (html : string),
    let doc := BeautifulSoup html in
    let price := extract_price_from_html BeautifulSoup html in
    (price_by_ids doc price_ids = None /\
     found (find_by_name_class doc "span" "a-price-whole") = true /\
     PyStr.contains "." price = true /\ price <> ""%string) \/
    clean_text price.
Proof.
  intros BS html doc price. unfold price, extract_price_from_html. fold doc.
  unfold price_of_soup.
  destruct (price_by_ids doc price_ids) as [p|] eqn:Eids.
  - right. now apply price_by_ids_clean in Eids.
  - destruct (find_by_name_class doc "span" "a-price-whole") as [w|] eqn:Ew.
    + left. split; [reflexivity|]. split; [reflexivity|]. split.
      * apply contains_append.
      * destruct (whole_part w); discriminate.
    + right. destruct (find_by_name_class doc "span" "a-offscreen") as [el|].
      * destruct (has_text (Some el)); [apply clean_price_clean|].
        repeat split.
      * repeat split.
Qed.

(** A fixed-id element whose text is only a currency sign decides, with the
    empty price. *)
Example currency_sign_only :
  price_of_soup
    [ Tag "span" (Some "priceblock_ourprice") [] [Text " $ "];
      Tag "span" None ["a-price-whole"] [Text "5."] ] = ""%string.
Proof. reflexivity. Qed.

(** ** The empty batch *)

Lemma list_set_last {A : Type} (l : list A) (x y : A) :
  list_set (l ++ [x]) (length l) y = l ++ [y].
Proof. induction l as [|h t IH]; simpl; [reflexivity | now rewrite IH]. Qed.

(** X15. A status check of a frame without rows still starts a browser
    session and closes it; it asks for no navigation, sends no write, reads
    no clock and returns the empty frame, with the identity column. *)
Theorem status_check_of_no_rows :
  forall (BeautifulSoup : string -> soup) (web : nat -> string -> navigation)
         (now : nat -> string) (db_fails : nat -> bool) (has_id : bool) (w : world),
    run_status_check BeautifulSoup web now db_fails (mkDataFrame has_id []) w
    = (Returned (mkDataFrame true []),
       set_sessions (sessions w ++ [mkSession false "data:," ""]) w).
Proof.
  intros BS web now db_fails has_id w.
  unfold run_status_check, bind, webdriver_Chrome. simpl.
  unfold driver_quit. simpl. rewrite nth_error_new_session. simpl.
  rewrite list_set_last.
  unfold get_all_asins, ensure_table, ensure_status_columns, get_world, bind, ret.
  simpl. unfold assign_results, merge_left_on_URL. simpl.
  now destruct has_id.
Qed.

(** ** Login *)

(** X16. The script reruns at most once: from every session state two
    runs are enough to show a page.  The page is the main application
    exactly when the state says logged in, otherwise the login page; and
    the state it leaves asks for no further rerun and has kept who is
    logged in. *)
Theorem script_shows_app_iff_logged_in :
  forall st : session_state,
    exists shown st',
      script 2 st = Some (shown, st') /\
      shown <> Rerun /\
      (shown = MainApp <-> logged_in st = Some true) /\
      truthy (login_success st') = false /\
      truthy (logged_in st') = truthy (logged_in st).
Proof.
  intros [li ls le u p].
  destruct li as [[|]|], ls as [[|]|], le as [[|c e]|]; cbn;
    eexists _, _; (split; [reflexivity|]);
    (split; [discriminate|]); (split; [split; intro H; (reflexivity || discriminate H)|]);
    split; reflexivity.
Qed.

(** X17. Submitting the login form from a state that is not logged in
    shows the main application exactly when the user name is [admin] and the
    password is [password123], compared as they are, letter for letter.
    With anything else the login page comes back with its error message,
    the state stays not logged in, and the message is shown once: the next
    run of the script shows the login page without it. *)
Theorem login_needs_exact_credentials :
  forall st : session_state,
    logged_in st <> Some true ->
    exists shown st',
      script 2 (do_login st) = Some (shown, st') /\
      (shown = MainApp <->
       login_username st = "admin"%string /\ login_password st = "password123"%string) /\
      (shown <> MainApp ->
       shown = LoginPage (Some "Invalid username or password"%string) /\
       truthy (logged_in st') = false /\
       fst (entry_point st') = LoginPage None).
Proof.
  intros [li ls le u p] Hli. unfold do_login. simpl login_username. simpl login_password.
  destruct (String.eqb u "admin") eqn:Eu; [destruct (String.eqb p "password123") eqn:Ep|].
  - apply String.eqb_eq in Eu, Ep. subst. cbn.
    eexists _, _. split; [reflexivity|]. split; [tauto|]. intro H. now contradiction H.
  - apply String.eqb_neq in Ep. simpl andb. cbv iota.
    destruct li as [[|]|]; [now contradiction Hli| |]; destruct ls as [[|]|]; cbn;
      eexists _, _; (split; [reflexivity|]);
      (split; [split; [intro H; discriminate H | intros [_ H]; contradiction]|]);
      intros _; repeat split.
  - apply String.eqb_neq in Eu. simpl andb. cbv iota.
    destruct li as [[|]|]; [now contradiction Hli| |]; destruct ls as [[|]|]; cbn;
      eexists _, _; (split; [reflexivity|]);
      (split; [split; [intro H; discriminate H | intros [H _]; contradiction]|]);
      intros _; repeat split.
Qed.

Lemma login_needs_exact_credentials_witness :
  (exists st',
      script 2 (do_login (mkSessionState None None None "admin" "password123"))
      = Some (MainApp, st')) /\
  exists st',
    script 2 (do_login (mkSessionState (Some false) (Some false) (Some "") "Admin"
                          "password123"))
    = Some (LoginPage (Some "Invalid username or password"), st').
Proof.
  split.
  - destruct (login_needs_exact_credentials
                (mkSessionState None None None "admin" "password123"))
      as (shown & st' & Hrun & Hiff & _); [discriminate|].
    exists st'. rewrite Hrun. do 2 f_equal. apply Hiff. split; reflexivity.
  - destruct (login_needs_exact_credentials
                (mkSessionState (Some false) (Some false) (Some "") "Admin" "password123"))
      as (shown & st' & Hrun & Hiff & Hfail); [discriminate|].
    exists st'. rewrite Hrun. do 2 f_equal. apply Hfail.
    intro H. apply Hiff in H. destruct H as [H _]. discriminate H.
Defined.

(** ** Summary dashboard *)

Lemma disjoint_filters_length {A : Type} (f g : A -> bool) (l : list A) :
  (forall x, f x = true -> g x = false) ->
  length (filter f l) + length (filter g l) <= length l /\
  (length (filter f l) + length (filter g l) = length l <->
   Forall (fun x => f x = true \/ g x = true) l).
Proof.
  intro Hfg. induction l as [|x l [IHle IHeq]]; simpl.
  - split; [lia|]. split; [constructor | reflexivity].
  - rewrite Forall_cons_iff, <- IHeq.
    destruct (f x) eqn:Ef.
    + rewrite (Hfg x Ef). simpl. split; [lia|]. split; [intro H; split; [now left | lia]|].
      intros [_ H]. lia.
    + destruct (g x) eqn:Eg; simpl.
      * split; [lia|]. split; [intro H; split; [now right | lia]|].
        intros [_ H]. lia.
      * split; [lia|]. split; [intro H; lia|].
        intros [[H | H] _]; discriminate H.
Qed.

Lemma orderable_is_iff (v : string) (p : product) :
  orderable_is v p = true <-> p_Orderable p = Some v.
Proof.
  unfold orderable_is. destruct (p_Orderable p) as [x|]; [|split; discriminate].
  rewrite String.eqb_eq. split; [now intros -> | now intros [= ->]].
Qed.

(** X18. In the summary, a record counts as orderable or as non-orderable,
    never as both: the two counts of a group together never exceed the
    number of its records, and they add up to it exactly when every record
    of the group has been checked (its orderable flag is Yes or No).  A
    record that was never checked is in the group and in neither count. *)
Theorem summary_counts_bounded :
  forall (collection customer : string) (table : list product),
    let group := group_of_summary collection customer table in
    let yes := fst (summary_counts collection customer table) in
    let no := snd (summary_counts collection customer table) in
    yes + no <= length group /\
    (yes + no = length group <->
     Forall (fun p => p_Orderable p = Some "Yes"%string \/ p_Orderable p = Some "No"%string)
       group) /\
    (forall p, In p group ->
       p_Collection_Name p = collection /\ p_Customer p = customer /\ In p table) /\
    (forall p, In p group -> p_Orderable p = None ->
       yes + no < length group).
Proof.
  intros collection customer table. unfold summary_counts. simpl.
  set (g := group_of_summary collection customer table).
  destruct (disjoint_filters_length (orderable_is "Yes") (orderable_is "No") g) as [Hle Heq].
  { intros p H. apply orderable_is_iff in H. unfold orderable_is. now rewrite H. }
  assert (Hiff : length (filter (orderable_is "Yes") g) + length (filter (orderable_is "No") g)
                 = length g <->
                 Forall (fun p => p_Orderable p = Some "Yes"%string \/
                                  p_Orderable p = Some "No"%string) g).
  { rewrite Heq. split; intro H; apply Forall_forall;
      intros p Hp; rewrite Forall_forall in H; specialize (H p Hp);
      rewrite !orderable_is_iff in *; exact H. }
  split; [exact Hle|]. split; [exact Hiff|]. split.
  - intros p Hp. unfold g, group_of_summary in Hp. apply filter_In in Hp.
    destruct Hp as [Hin Hkey]. apply andb_true_iff in Hkey.
    destruct Hkey as [H1 H2]. apply String.eqb_eq in H1, H2. auto.
  - intros p Hp Hnone.
    destruct (Nat.eq_dec
                (length (filter (orderable_is "Yes") g) +
                 length (filter (orderable_is "No") g)) (length g)) as [E | E]; [|lia].
    apply Hiff in E. rewrite Forall_forall in E. specialize (E p Hp).
    rewrite Hnone in E. destruct E as [E | E]; discriminate E.
Qed.

Lemma summary_counts_bounded_witness :
  fst (summary_counts "Towels" "Acme" example_catalog)
  + snd (summary_counts "Towels" "Acme" example_catalog)
  < length (group_of_summary "Towels" "Acme" example_catalog).
Proof.
  apply (proj2 (proj2 (proj2 (summary_counts_bounded "Towels" "Acme" example_catalog)))
           (listing 1 "B000123456" "https://x/dp/B000123456")).
  - simpl. auto.
  - reflexivity.
Defined.

(** ** The price on the results tab *)

(** X19. The results tab shows a stored price with one dollar sign in
    front of it and nothing for a price that is null, empty or blank.  For a
    price that is clean text (as the fixed-id and off-screen branches of the
    extraction return it) that dollar sign is the only one shown, and the
    stored price is what follows it. *)
Theorem displayed_price_has_one_dollar :
  forall x : option string,
    (display_price x = ""%string <->
     match x with
     | Some price => PyStr.strip price = ""%string
     | None => True
     end) /\
    forall price,
      x = Some price -> clean_text price -> price <> ""%string ->
      display_price x = String "$" price /\
      PyStr.forall_chars (not_char "$") price = true.
Proof.
  intro x. split.
  - destruct x as [price|]; simpl; [|tauto].
    destruct (PyStr.strip price) eqn:E; simpl; split; intro H;
      try reflexivity; discriminate H.
  - intros price -> (Hstrip & Hdollar & _) Hne. simpl. rewrite Hstrip.
    destruct price; [now contradiction Hne|]. simpl. auto.
Qed.

Lemma displayed_price_has_one_dollar_witness :
  display_price (Some (clean_price " $19.99 ")) = "$19.99"%string.
Proof.
  apply (proj2 (displayed_price_has_one_dollar (Some (clean_price " $19.99 ")))
           (clean_price " $19.99 ") eq_refl).
  - apply clean_price_clean.
  - discriminate.
Defined.
